(** * calour: experiment tables, transforms, sorting and I/O

    A shallow embedding of [calour/transforming.py], [calour/sorting.py]
    and [calour/io.py].

    Conventions of the embedding.
    - The abundance matrix is a list of rows (samples), each a list of
      entries (features).  numpy/scipy floats are represented by the exact
      rationals [Qc]; what the source computes "within floating tolerance"
      holds here exactly.  A division whose divisor is zero yields the
      non-finite marker [None] (numpy's nan or inf) wherever the source
      performs such a division unguarded.
    - pandas tables are row lists keyed by an index label.
    - Python exceptions are the [Raise] results of the [res] monad.
    - A function with an [inplace] flag returns the experiment it produces;
      with [inplace=False] the caller's object is a separate value and is
      left as it was. *)

From Stdlib Require Import Ascii String QArith Qcanon Qcabs Field.
From stdpp Require Import base numbers list sorting strings pretty gmap.

Local Open Scope Qc_scope.
Local Open Scope list_scope.

(** ** Python values, exceptions *)

Inductive pyval :=
| PNone
| PBool (b : bool)
| PNum (q : Qc)
| PStr (s : string).

Inductive exn := ValueError | TypeError | KeyError | IndexError | ZeroDivisionError.

Inductive res (A : Type) :=
| Ok (a : A)
| Raise (e : exn).
Arguments Ok {A} a.
Arguments Raise {A} e.

Global Instance res_ret : MRet res := λ A a, Ok a.

Global Instance res_bind : MBind res := λ A B k m,
  match m with
  | Ok a => k a
  | Raise e => Raise e
  end.

Definition raises {A} (m : res A) : Prop := ∃ e, m = Raise e.

(** ** Tables and experiments *)

(** A metadata cell: a string, or pandas' missing value. *)
Inductive cell := NaN | Str (s : string).

Record DataFrame := mkDF {
  df_columns : list string;
  df_rows : list (string * list cell)
}.

Definition df_index (df : DataFrame) : list string := (df_rows df).*1.

Abbreviation matrix := (list (list Qc)).

(** A float that may be non-finite: [None] stands for the nan or inf that
    numpy produces when it divides by zero. *)
Abbreviation fl := (option Qc).

(** The experiment record, over the type [E] of the matrix entries:
    [Experiment] has finite entries, [Experiment_ fl] is what a transform
    with an unguarded division leaves behind. *)
Record Experiment_ (E : Type) := mkExp {
  data : list (list E);
  sample_metadata : DataFrame;
  feature_metadata : DataFrame;
  exp_metadata : gmap string pyval;
  sparse : bool
}.
Arguments mkExp {E} _ _ _ _ _.
Arguments data {E} _.
Arguments sample_metadata {E} _.
Arguments feature_metadata {E} _.
Arguments exp_metadata {E} _.
Arguments sparse {E} _.

Abbreviation Experiment := (Experiment_ Qc).

(** [exp.data = d] *)
Definition set_data {E F} (exp : Experiment_ E) (d : list (list F)) : Experiment_ F :=
  mkExp d (sample_metadata exp) (feature_metadata exp) (exp_metadata exp) (sparse exp).

(** [exp.exp_metadata[k] = v] *)
Definition set_exp_metadata {E} (exp : Experiment_ E) (k : string) (v : pyval) : Experiment_ E :=
  mkExp (data exp) (sample_metadata exp) (feature_metadata exp)
        (<[k := v]> (exp_metadata exp)) (sparse exp).

(** ** numpy-style helpers *)

Definition qsum (l : list Qc) : Qc := foldr Qcplus 0 l.

(** [X.sum(axis=1)]: one sum per row. *)
Definition row_sums (m : matrix) : list Qc := qsum <$> m.

(** Column [j] of a matrix. *)
Definition column (j : nat) (m : matrix) : list Qc := (λ r : list Qc, nth j r 0) <$> m.

(** The columns of a matrix with [n] columns. *)
Definition columns (n : nat) (m : matrix) : matrix := (λ j, column j m) <$> seq 0 n.

Definition ncols (m : matrix) : nat :=
  match m with
  | [] => O
  | r :: _ => length r
  end.

Definition transpose (m : matrix) : matrix := columns (ncols m) m.

(** ** [sklearn.preprocessing.normalize(X, norm='l1', axis)] *)

(** The L1 norm of a vector: the sum of the absolute values. *)
Definition l1_norm (r : list Qc) : Qc := qsum (Qcabs <$> r).

(** sklearn replaces a zero norm by one before dividing, so an all-zero
    vector is returned as it is. *)
Definition handle_zeros (n : Qc) : Qc := if decide (n = 0) then 1 else n.

Definition l1_normalize_row (r : list Qc) : list Qc :=
  (λ x, x / handle_zeros (l1_norm r)) <$> r.

(** sklearn validates its input first ([check_array]): a matrix without a
    row or without a column is refused. *)
Definition no_entries (m : matrix) : bool :=
  match m with
  | [] => true
  | r :: _ => bool_decide (r = [])
  end.

Definition sk_normalize_l1 (m : matrix) (axis : Z) : res matrix :=
  if no_entries m then Raise ValueError
  else if decide (axis = 1%Z) then Ok (l1_normalize_row <$> m)
  else if decide (axis = 0%Z) then Ok (transpose (l1_normalize_row <$> transpose m))
  else Raise ValueError.

Definition mscale (t : Qc) (m : matrix) : matrix := (λ r : list Qc, (λ x, x * t) <$> r) <$> m.

(** ** transforming.normalize *)

(** [total <= 0] on a Python value: numbers compare, anything else that
    gets past the [bool] test raises [TypeError]. *)
Definition le_zero (total : pyval) : res bool :=
  match total with
  | PNum t => Ok (bool_decide (t ≤ 0))
  | PBool b => Ok (negb b)
  | PNone | PStr _ => Raise TypeError
  end.

Definition isinstance_bool (v : pyval) : bool :=
  match v with
  | PBool _ => true
  | _ => false
  end.

Definition as_num (v : pyval) : res Qc :=
  match v with
  | PNum t => Ok t
  | PBool b => Ok (if b then 1 else 0)
  | PNone | PStr _ => Raise TypeError
  end.

Definition normalize (exp : Experiment) (total : pyval) (axis : Z) : res Experiment :=
  if isinstance_bool total then Raise ValueError
  else
    nonpos ← le_zero total ;
    if (nonpos : bool) then Raise ValueError
    else
      t ← as_num total ;
      d ← sk_normalize_l1 (data exp) (1 - axis) ;
      Ok (set_exp_metadata (set_data exp (mscale t d)) "normalized" total).

(** ** Unguarded division *)

Definition fdiv (a b : Qc) : fl := if decide (b = 0) then None else Some (a / b).

Definition fdiv_fl (a : Qc) (b : fl) : fl := b' ← b; fdiv a b'.

Definition fmul_fl (a : Qc) (b : fl) : fl := b' ← b; Some (a * b').

(** [np.mean] of a vector: nan on the empty vector. *)
Definition np_mean (l : list Qc) : fl := fdiv (qsum l) (Qc_of_Z (Z.of_nat (length l))).

(** [X.sum(axis=a)]: [a = 1] sums each row, [a = 0] each column. *)
Definition np_sum_axis (m : matrix) (axis : Z) : res (list Qc) :=
  if decide (axis = 1%Z) then Ok (row_sums m)
  else if decide (axis = 0%Z) then Ok (row_sums (transpose m))
  else Raise ValueError.

(** ** transforming.rescale *)

Definition rescale (exp : Experiment) (total : pyval) (axis : Z)
  : res (Experiment_ fl) :=
  if isinstance_bool total then Raise ValueError
  else
    sums ← np_sum_axis (data exp) (1 - axis);
    t ← as_num total;
    let current_mean := np_mean sums in
    Ok (set_data exp ((λ r : list Qc, (λ x, fdiv_fl (x * t) current_mean) <$> r) <$> data exp)).

(** ** transforming.normalize_by_subset_features *)

(** [index.isin(values)] *)
Definition isin (index values : list string) : list bool :=
  (λ i, bool_decide (i ∈ values)) <$> index.

(** Selection by a boolean mask, [a[mask]]: the mask must be as long as
    the axis it selects from. *)
Fixpoint mask_filter {A} (mask : list bool) (l : list A) : list A :=
  match mask, l with
  | b :: mask', x :: l' => if b then x :: mask_filter mask' l' else mask_filter mask' l'
  | _, _ => []
  end.

Definition take_mask {A} (mask : list bool) (l : list A) : res (list A) :=
  if decide (length mask = length l) then Ok (mask_filter mask l) else Raise IndexError.

(** Selection by positions, [a[positions]]. *)
Definition take_positions {A} (ps : list nat) (l : list A) : res (list A) :=
  foldr (λ i acc, rest ← acc;
                  match l !! i with
                  | Some x => Ok (x :: rest)
                  | None => Raise IndexError
                  end) (Ok []) ps.

(** Apply a fallible function to every element, left to right. *)
Definition res_map {A B} (f : A → res B) (l : list A) : res (list B) :=
  foldr (λ x acc, match f x with
                  | Ok y => rest ← acc; Ok (y :: rest)
                  | Raise e => Raise e
                  end) (Ok []) l.

Definition normalize_by_subset_features (exp : Experiment) (features : list string)
    (total : pyval) (negate : bool) : res (Experiment_ fl) :=
  let feature_pos := isin (df_index (feature_metadata exp)) features in
  let feature_pos := if negate then negb <$> feature_pos else feature_pos in
  used ← res_map (take_mask feature_pos) (data exp);
  let use_reads := row_sums used in
  t ← as_num total;
  let newdata := zip_with (λ (r : list Qc) s, (λ x, fdiv (t * x) s) <$> r) (data exp) use_reads in
  Ok (set_exp_metadata (set_data exp newdata) "normalized" total).

(** ** transforming.transform *)

(** [k.split('__')]: the pieces of [k] between the occurrences of the
    separator, found from the left. *)
Definition cons_first (c : ascii) (ps : list string) : list string :=
  match ps with
  | p :: ps' => String c p :: ps'
  | [] => [String c ""]
  end.

Fixpoint split_dunder (s : string) : list string :=
  match s with
  | EmptyString => [""]
  | String c rest =>
      match rest with
      | String c' rest' =>
          if decide (c = "_"%char ∧ c' = "_"%char) then "" :: split_dunder rest'
          else cons_first c (split_dunder rest)
      | EmptyString => [String c ""]
      end
  end.

(** A transformer: a named callable that takes the experiment and its
    keyword arguments and, called with [inplace=True], leaves its result in
    the experiment it was given. *)
Record transformer := mkStep {
  step_name : string;
  step_call : Experiment → gmap string pyval → res Experiment
}.

Abbreviation params_t := (gmap string (gmap string pyval)).

(** [params[transformer]] on the [defaultdict(dict)]. *)
Definition params_get (params : params_t) (t : string) : gmap string pyval :=
  default ∅ (params !! t).

(** The loop over [kwargs.items()]. *)
Fixpoint route (kwargs : list (string * pyval)) (params : params_t) : res params_t :=
  match kwargs with
  | [] => Ok params
  | (k, v) :: kwargs' =>
      match split_dunder k with
      | [t; param_name] =>
          if decide (param_name = "inplace") then Raise ValueError
          else route kwargs' (<[t := <[param_name := v]> (params_get params t)]> params)
      | _ => Raise ValueError
      end
  end.

(** The loop over [steps]. *)
Fixpoint run_steps (steps : list transformer) (params : params_t) (exp : Experiment)
  : res Experiment :=
  match steps with
  | [] => Ok exp
  | step :: steps' =>
      exp' ← step_call step exp (params_get params (step_name step));
      run_steps steps' params exp'
  end.

Definition transform (exp : Experiment) (steps : list transformer)
    (kwargs : list (string * pyval)) : res Experiment :=
  params ← route kwargs ∅;
  run_steps steps params exp.

(** ** Experiment.reorder *)

(** [new_order]: a sequence of positions, or a boolean mask. *)
Inductive order :=
| Positions (ps : list nat)
| Mask (mask : list bool).

Definition select {A} (o : order) (l : list A) : res (list A) :=
  match o with
  | Positions ps => take_positions ps l
  | Mask mask => take_mask mask l
  end.

(** Row selection of a table. *)
Definition df_select (o : order) (df : DataFrame) : res DataFrame :=
  rows ← select o (df_rows df);
  Ok (mkDF (df_columns df) rows).

(** Modelled from the spec: [Experiment.reorder] lives in
    [calour/experiment.py], which is not among the sources.  The spec's
    contract (4.2): the matrix is row- or column-selected according to
    [new_order], the metadata table of that axis is row-selected in the
    identical order, the table of the opposite axis is untouched; the
    order may repeat or omit positions. *)
Definition reorder (exp : Experiment) (new_order : order) (axis : Z) : res Experiment :=
  if decide (axis = 0%Z) then
    d ← select new_order (data exp);
    smd ← df_select new_order (sample_metadata exp);
    Ok (mkExp d smd (feature_metadata exp) (exp_metadata exp) (sparse exp))
  else if decide (axis = 1%Z) then
    d ← res_map (select new_order) (data exp);
    fmd ← df_select new_order (feature_metadata exp);
    Ok (mkExp d (sample_metadata exp) fmd (exp_metadata exp) (sparse exp))
  else Raise ValueError.

(** ** sorting.sort_ids *)

(** [index.get_loc(cid)] for a label of a unique index: its position. *)
Definition get_loc (index : list string) (cid : string) : option nat :=
  fst <$> list_find (λ i, i = cid) index.

(** The loop over [ids]: the positions of the ids found in the index. *)
Fixpoint sort_ids_okpos (index : list string) (ids : list string) : list nat :=
  match ids with
  | [] => []
  | cid :: ids' =>
      match get_loc index cid with
      | Some pos => pos :: sort_ids_okpos index ids'
      | None => sort_ids_okpos index ids'
      end
  end.

(** [np.setdiff1d(a, b, assume_unique=True)]: the elements of [a] that are
    not in [b], in the order of [a]. *)
Definition setdiff1d (a b : list nat) : list nat := filter (λ i, i ∉ b) a.

Definition sort_ids (exp : Experiment) (ids : list string) (axis : Z) : res Experiment :=
  let index := if decide (axis = 0%Z) then df_index (sample_metadata exp)
               else df_index (feature_metadata exp) in
  let okpos := sort_ids_okpos index ids in
  let otherpos := setdiff1d (seq 0 (length index)) okpos in
  reorder exp (Positions (okpos ++ otherpos)) axis.

(** ** sorting.sort_by_data *)

(** What [key] is called with: a one-dimensional array (dense data), or a
    one-row or one-column sparse matrix (sparse data). *)
Inductive vec :=
| Arr (x : list Qc)
| Sp (x : list Qc).

Definition vec_values (v : vec) : list Qc :=
  match v with
  | Arr x | Sp x => x
  end.

Section Sorting.
(** [np.log2], on the positive numbers it is given. *)
Variable np_log2 : Qc → Qc.

(** [np.argsort(values)] with numpy's default [kind]. *)
Variable argsort : list fl → list nat.

(** [_log_mean(x, logit=1)] *)
Definition _log_mean (logit : option Qc) (x : vec) : res fl :=
  match logit with
  | None => Ok (np_mean (vec_values x))
  | Some lg =>
      let x' := (λ v, if decide (v < lg) then lg else v) <$> vec_values x in
      Ok (np_mean (np_log2 <$> x'))
  end.

(** [_prevalence(x, cutoff=0)]: [len(x)] of a sparse matrix raises
    [TypeError], and the empty array divides zero by zero. *)
Definition _prevalence (cutoff : Qc) (x : vec) : res fl :=
  match x with
  | Sp _ => Raise TypeError
  | Arr [] => Raise ZeroDivisionError
  | Arr l =>
      Ok (fdiv (Qc_of_Z (Z.of_nat (length (filter (λ i, cutoff ≤ i) l))))
               (Qc_of_Z (Z.of_nat (length l))))
  end.

Inductive sort_key :=
| KeyStr (name : string)
| KeyFun (f : vec → res fl).

(** The [func] dictionary. *)
Definition func (name : string) : res (vec → res fl) :=
  if decide (name = "log_mean") then Ok (_log_mean (Some 1))
  else if decide (name = "prevalence") then Ok (_prevalence 0)
  else if decide (name = "mean") then Ok (λ x, Ok (np_mean (vec_values x)))
  else Raise KeyError.

(** [np.apply_along_axis(key, a, m)] over the vectors of [m] along [a]:
    numpy refuses a matrix that has no such vector. *)
Definition apply_along_axis (f : list Qc → res fl) (vectors : matrix) : res (list fl) :=
  match vectors with
  | [] => Raise ValueError
  | _ => res_map f vectors
  end.

(** [exp.data], or its restriction to [subset] on the opposite axis. *)
Definition data_subset (exp : Experiment) (axis : Z) (subset : option (list nat))
  : res matrix :=
  match subset with
  | None => Ok (data exp)
  | Some subset =>
      if decide (axis = 0%Z) then res_map (take_positions subset) (data exp)
      else take_positions subset (data exp)
  end.

(** The vectors that [key] is applied to: the rows for axis 0, the
    columns for axis 1. *)
Definition key_vectors (exp : Experiment) (axis : Z) (m : matrix) : res matrix :=
  if decide (axis = 0%Z) then Ok m
  else if decide (axis = 1%Z) then Ok (columns (length (df_rows (feature_metadata exp))) m)
  else Raise IndexError.

Definition sort_by_data (exp : Experiment) (axis : Z) (subset : option (list nat))
    (key : sort_key) (reverse_order : bool) : res Experiment :=
  m ← data_subset exp axis subset;
  key ← match key with
        | KeyStr name => func name
        | KeyFun f => Ok f
        end;
  vectors ← key_vectors exp axis m;
  values ←
    (if sparse exp then res_map (λ x, key (Sp x)) vectors
     else apply_along_axis (λ x, key (Arr x)) vectors);
  let sort_pos := argsort values in
  let sort_pos := if reverse_order then reverse sort_pos else sort_pos in
  reorder exp (Positions sort_pos) axis.
End Sorting.

(** ** io.read *)

(** [df.loc[labels, ]]: the rows of the table for the labels, in the order
    of the labels; a label that the table has several times gives all its
    rows.  A label that the table lacks raises [KeyError] (pandas 1.0 and
    later; earlier versions gave a row of missing values for such a label
    as long as another label was found, and raised when none was). *)
Definition df_loc (df : DataFrame) (labels : list string) : res DataFrame :=
  if decide (Forall (λ l, l ∈ df_index df) labels) then
    Ok (mkDF (df_columns df) (labels ≫= λ l, filter (λ r, r.1 = l) (df_rows df)))
  else Raise KeyError.

(** [pd.DataFrame(index=ids)] followed by [df['id'] = ids] *)
Definition df_of_ids (ids : list string) : DataFrame :=
  mkDF ["id"] ((λ i, (i, [Str i])) <$> ids).

(** [pd.concat([a, b], axis=1)] of two tables that carry the same index. *)
Definition df_concat_columns (a b : DataFrame) : DataFrame :=
  mkDF (df_columns a ++ df_columns b)
       (zip_with (λ ra rb, (ra.1, ra.2 ++ rb.2)) (df_rows a) (df_rows b)).

Inductive warning :=
| MetadataWithoutData (axis : Z) (ids : gset string)
| DataWithoutMetadata (axis : Z) (ids : gset string).

(** What the loaders return: sample ids, feature ids, the matrix and,
    for biom tables, the feature metadata stored in the table. *)
Record loaded := mkLoaded {
  ld_sid : list string;
  ld_oid : list string;
  ld_data : matrix;
  ld_md : option DataFrame
}.

Section Reading.
(** The file system, as the loaders see it. *)
Variable _read_biom : string → loaded.
Variable _read_qiime2 : string → loaded.
Variable _read_open_ms : string → bool → loaded.
Variable _read_table : string → DataFrame.
Variable get_file_md5 : string → string.
Variable get_data_md5 : matrix → string.

Definition opt_str (s : option string) : pyval :=
  match s with
  | Some s => PStr s
  | None => PNone
  end.

(** The dispatch on [data_file_type]. *)
Definition load_data (data_file data_file_type : string) : res loaded :=
  if decide (data_file_type = "biom") then Ok (_read_biom data_file)
  else if decide (data_file_type = "openms") then Ok (_read_open_ms data_file false)
  else if decide (data_file_type = "openms_transpose") then Ok (_read_open_ms data_file true)
  else if decide (data_file_type = "qiime2") then Ok (_read_qiime2 data_file)
  else Raise ValueError.

(** The identifiers of a table against those of the data: the
    warnings, the filter of the identifiers that have metadata, and the
    table aligned with the data, or the exception of the lookup. *)
Definition align_metadata (axis : Z) (metadata : DataFrame) (ids : list string)
  : list warning * list bool * res DataFrame :=
  let mid : gset string := list_to_set (df_index metadata) in
  let did : gset string := list_to_set ids in
  let diff := mid ∖ did in
  let ddiff := did ∖ mid in
  ((if decide (diff = ∅) then [] else [MetadataWithoutData axis diff])
     ++ (if decide (ddiff = ∅) then [] else [DataWithoutMetadata axis ddiff]),
   (if decide (ddiff = ∅) then replicate (length ids) true
    else (λ i, bool_decide (i ∉ ddiff)) <$> ids),
   df_loc metadata ids).

(** The result of [read]: the warnings logged, and the experiment or the
    exception. *)
Definition read (data_file : string) (sample_metadata_file feature_metadata_file : option string)
    (drop sparse_flag : bool) (data_file_type : string) (normalize_total : option pyval)
  : list warning * res Experiment :=
  let exp_metadata : gmap string pyval := {["map_md5" := PStr ""]} in
  match load_data data_file data_file_type with
  | Raise e => ([], Raise e)
  | Ok ld =>
      let sid := ld_sid ld in
      let oid := ld_oid ld in
      let '(w1, sfilter, sample_metadata) :=
        match sample_metadata_file with
        | Some f => align_metadata 0 (_read_table f) sid
        | None => ([], replicate (length sid) true, Ok (df_of_ids sid))
        end in
      match sample_metadata with
      | Raise e => (w1, Raise e)
      | Ok sample_metadata =>
          let exp_metadata :=
            match sample_metadata_file with
            | Some f => <["map_md5" := PStr (get_file_md5 f)]> exp_metadata
            | None => exp_metadata
            end in
          let '(w2, feature_metadata) :=
            match feature_metadata_file with
            | Some f =>
                let '(w, _, feature_metadata) := align_metadata 1 (_read_table f) oid in
                (w, feature_metadata)
            | None => ([], Ok (df_of_ids oid))
            end in
          match feature_metadata with
          | Raise e => (w1 ++ w2, Raise e)
          | Ok feature_metadata =>
              let feature_metadata :=
                match ld_md ld with
                | Some md =>
                    if decide (data_file_type = "biom") then df_concat_columns feature_metadata md
                    else feature_metadata
                | None => feature_metadata
                end in
              let exp_metadata := <["data_file" := PStr data_file]> exp_metadata in
              let exp_metadata :=
                <["sample_metadata_file" := opt_str sample_metadata_file]> exp_metadata in
              let exp_metadata :=
                <["feature_metadata_file" := opt_str feature_metadata_file]> exp_metadata in
              let exp_metadata := <["data_md5" := PStr (get_data_md5 (ld_data ld))]> exp_metadata in
              let exp := mkExp (ld_data ld) sample_metadata feature_metadata exp_metadata
                               sparse_flag in
              (w1 ++ w2,
               exp ← (if drop then reorder exp (Mask sfilter) 0 else Ok exp);
               match normalize_total with
               | Some total => normalize exp total 0
               | None => Ok exp
               end)
          end
      end
  end.
End Reading.

(** ** Column access on tables *)

Global Instance cell_eq_dec : EqDecision cell.
Proof. solve_decision. Defined.

(** The position of a column. *)
Definition df_column_pos (df : DataFrame) (name : string) : option nat :=
  fst <$> list_find (λ c, c = name) (df_columns df).

(** [df[name].values]: the cells of a column, row by row. *)
Definition df_column (df : DataFrame) (name : string) : res (list cell) :=
  match df_column_pos df name with
  | Some j => Ok ((λ r : string * list cell, nth j r.2 NaN) <$> df_rows df)
  | None => Raise KeyError
  end.

(** [df[name][label]] for a column at position [j] and a label of a
    unique index. *)
Definition df_at (df : DataFrame) (j : nat) (label : string) : cell :=
  match filter (λ r, r.1 = label) (df_rows df) with
  | r :: _ => nth j r.2 NaN
  | [] => NaN
  end.

(** ** filtering.filter_by_metadata *)

(** [select]: a list of values, or a predicate over the whole column. *)
Inductive selection :=
| Values (vs : list cell)
| Predicate (f : list cell → list bool).

(** Modelled from the spec: [filter_by_metadata] lives in
    [calour/filtering.py], which is not among the sources (its tests
    are).  The spec's contract (4.2): select the rows or columns whose
    metadata value in [field] is in [selection], or for which the predicate
    over the full column holds; [negate=True] inverts the selection before
    filtering; the result is obtained through [reorder]. *)
Definition filter_by_metadata (exp : Experiment) (field : string) (select : selection)
    (axis : Z) (negate : bool) : res Experiment :=
  md ← (if decide (axis = 0%Z) then Ok (sample_metadata exp)
        else if decide (axis = 1%Z) then Ok (feature_metadata exp)
        else Raise ValueError);
  col ← df_column md field;
  let mask := match select with
              | Values vs => (λ c, bool_decide (c ∈ vs)) <$> col
              | Predicate f => f col
              end in
  let mask := if negate then negb <$> mask else mask in
  reorder exp (Mask mask) axis.

(** ** io.save_fasta *)

Definition nl : string := String (ascii_of_nat 10) "".

(** ['%s' % c] *)
Definition py_str (c : cell) : string :=
  match c with
  | Str s => s
  | NaN => "nan"
  end.

(** ['%d %s' % (idx, x)] *)
Definition fasta_header (idx : nat) (x : string) : string := pretty idx +:+ " " +:+ x.

(** ['>%s\n%s\n' % (cheader, cseq)] *)
Definition fasta_record (cheader cseq : string) : string :=
  ">" +:+ cheader +:+ nl +:+ cseq +:+ nl.

(** The loop over [enumerate(seqs)], from position [idx] on: the state is
    the text written so far and the number of sequences skipped. *)
Fixpoint save_fasta_loop (fmd : DataFrame) (add_taxonomy : option nat) (idx : nat)
    (seqs : list string) (file : string) (num_skipped : nat) : string * nat :=
  match seqs with
  | [] => (file, num_skipped)
  | cseq :: seqs' =>
      if decide (cseq ∈ df_index fmd) then
        let cheader :=
          match add_taxonomy with
          | Some j => fasta_header idx (py_str (df_at fmd j cseq))
          | None => fasta_header idx cseq
          end in
        save_fasta_loop fmd add_taxonomy (S idx) seqs' (file +:+ fasta_record cheader cseq) num_skipped
      else save_fasta_loop fmd add_taxonomy (S idx) seqs' file (S num_skipped)
  end.

(** The text of the file written, and [num_skipped]. *)
Definition save_fasta {E} (exp : Experiment_ E) (seqs : option (list string)) : string * nat :=
  let seqs := match seqs with
              | None => df_index (feature_metadata exp)
              | Some seqs => seqs
              end in
  let add_taxonomy := df_column_pos (feature_metadata exp) "taxonomy" in
  save_fasta_loop (feature_metadata exp) add_taxonomy 0 seqs "" 0.

(** ** The invariants of an experiment *)

(** I1 and I2: the metadata tables have one row per row, respectively per
    column, of the matrix. *)
Definition aligned {E} (exp : Experiment_ E) : Prop :=
  length (data exp) = length (df_rows (sample_metadata exp))
  ∧ Forall (λ r, length r = length (df_rows (feature_metadata exp))) (data exp).

(** I3: the identifiers of each table are unique. *)
Definition unique_ids {E} (exp : Experiment_ E) : Prop :=
  NoDup (df_index (sample_metadata exp)) ∧ NoDup (df_index (feature_metadata exp)).

(** ** Keyword routing, as a specification *)

(** ['__'.join([t, p])] *)
Definition key_of (t p : string) : string := t +:+ "__" +:+ p.

(** ['__'.join(parts)] *)
Fixpoint join_dunder (parts : list string) : string :=
  match parts with
  | [] => ""
  | [p] => p
  | p :: parts' => p +:+ "__" +:+ join_dunder parts'
  end.

(** A key that [transform] accepts: it splits into a transformer name and
    a parameter name other than [inplace]. *)
Definition routable (k : string) : Prop :=
  ∃ t p, split_dunder k = [t; p] ∧ p ≠ "inplace".

(** The value that the keyword arguments give to parameter [p] of the
    transformer named [t]: the one of the last key that splits into [t]
    and [p]. *)
Fixpoint lookup_routed (kwargs : list (string * pyval)) (t p : string) : option pyval :=
  match kwargs with
  | [] => None
  | (k, v) :: kwargs' =>
      match lookup_routed kwargs' t p with
      | Some w => Some w
      | None => if decide (split_dunder k = [t; p]) then Some v else None
      end
  end.

(** The steps applied one after the other, as a left fold. *)
Definition apply_in_order (steps : list transformer) (params : params_t) (exp : Experiment)
  : res Experiment :=
  foldl (λ acc step, e ← acc; step_call step e (params_get params (step_name step)))
        (Ok exp) steps.

(** ** The identifiers along an axis *)

Definition axis_index {E} (exp : Experiment_ E) (axis : Z) : list string :=
  if decide (axis = 0%Z) then df_index (sample_metadata exp)
  else df_index (feature_metadata exp).

(** The metadata table of an axis. *)
Definition axis_metadata {E} (exp : Experiment_ E) (axis : Z) : DataFrame :=
  if decide (axis = 0%Z) then sample_metadata exp else feature_metadata exp.

(** A selection that can be applied to a column: a predicate answers
    with one boolean per value. *)
Definition selection_ok (select : selection) : Prop :=
  match select with
  | Values _ => True
  | Predicate f => ∀ col, length (f col) = length col
  end.

(** The mask of a selection on a column. *)
Definition selection_mask (select : selection) (col : list cell) : list bool :=
  match select with
  | Values vs => (λ c, bool_decide (c ∈ vs)) <$> col
  | Predicate f => f col
  end.

(** ** The FASTA text, as a specification *)

(** [enumerate(seqs)] *)
Definition enumerate {A} (l : list A) : list (nat * A) := zip (seq 0 (length l)) l.

(** [''.join(pieces)] *)
Definition concat_str (pieces : list string) : string := foldr String.append "" pieces.

(** What the header carries after the number. *)
Definition annotation (fmd : DataFrame) (cseq : string) : string :=
  match df_column_pos fmd "taxonomy" with
  | Some j => py_str (df_at fmd j cseq)
  | None => cseq
  end.

(** ** Sorting orders, as a specification *)

(** numpy's order on floats: nan sorts last. *)
Definition fl_le (a b : fl) : Prop :=
  match a, b with
  | _, None => True
  | None, Some _ => False
  | Some x, Some y => x ≤ y
  end.

Global Instance fl_le_dec : RelDecision fl_le.
Proof. intros [x|] [y|]; simpl; apply _. Defined.

(** The value at a position. *)
Definition value_at (values : list fl) (i : nat) : fl := default None (values !! i).

(** What [np.argsort] promises for every [kind]: the positions of the
    array, each once, with ascending values. *)
Definition is_argsort (values : list fl) (pos : list nat) : Prop :=
  pos ≡ₚ seq 0 (length values)
  ∧ StronglySorted (λ i j, fl_le (value_at values i) (value_at values j)) pos.

(** A stable order: of two positions with values that compare equal, the
    smaller one comes first. *)
Definition is_stable (values : list fl) (pos : list nat) : Prop :=
  StronglySorted (λ i j, fl_le (value_at values j) (value_at values i) → (i < j)%nat) pos.

(** Two orders on the positions paired with their values: by value, ties
    in favour of the earlier, respectively the later, position. *)
Definition earlier_first (p q : nat * fl) : Prop :=
  fl_le p.2 q.2 ∧ (fl_le q.2 p.2 → (p.1 ≤ q.1)%nat).

Definition later_first (p q : nat * fl) : Prop :=
  fl_le p.2 q.2 ∧ (fl_le q.2 p.2 → (q.1 ≤ p.1)%nat).

Global Instance earlier_first_dec : RelDecision earlier_first.
Proof. intros p q. unfold earlier_first. apply _. Defined.

Global Instance later_first_dec : RelDecision later_first.
Proof. intros p q. unfold later_first. apply _. Defined.

(** Two sorting routines that keep the promise of [np.argsort]: a stable
    one, and one that puts the later of two equal values first. *)
Definition argsort_stable (values : list fl) : list nat :=
  (merge_sort earlier_first (zip (seq 0 (length values)) values)).*1.

Definition argsort_unstable (values : list fl) : list nat :=
  (merge_sort later_first (zip (seq 0 (length values)) values)).*1.

(** ** Example experiments *)

Definition exp_zero_row : Experiment :=
  mkExp [[Qc_of_Z 1; Qc_of_Z 2; Qc_of_Z 3]; [0; 0; 0]]
        (mkDF ["id"] [("S1", [Str "S1"]); ("S2", [Str "S2"])])
        (mkDF ["id"] [("F1", [Str "F1"]); ("F2", [Str "F2"]); ("F3", [Str "F3"])])
        ∅ false.

Definition exp_mixed_sign : Experiment :=
  mkExp [[0; 0]; [Qc_of_Z 3; - 1]]
        (mkDF ["id"] [("S1", [Str "S1"]); ("S2", [Str "S2"])])
        (mkDF ["id"] [("F1", [Str "F1"]); ("F2", [Str "F2"])])
        ∅ false.

Definition two_features : DataFrame :=
  mkDF ["id"] [("F1", [Str "F1"]); ("F2", [Str "F2"])].

Definition one_sample : DataFrame := mkDF ["id"] [("S1", [Str "S1"])].

Definition exp_ones : Experiment := mkExp [[1; 1]] one_sample two_features ∅ false.

Definition exp_zero_outside : Experiment := mkExp [[1; 0]] one_sample two_features ∅ false.

(** [normalize] as a step of a pipeline: its [total] keyword defaults to
    10000. *)
Definition step_normalize : transformer :=
  mkStep "normalize"
         (λ exp kw, normalize exp (default (PNum (Qc_of_Z 10000)) (kw !! "total")) 0).

Definition five_features : DataFrame :=
  mkDF ["id"] [("F1", [Str "F1"]); ("F2", [Str "F2"]); ("F3", [Str "F3"]);
               ("F4", [Str "F4"]); ("F5", [Str "F5"])].

Definition exp_five : Experiment :=
  mkExp [[Qc_of_Z 1; Qc_of_Z 2; Qc_of_Z 3; Qc_of_Z 4; Qc_of_Z 5]]
        one_sample five_features ∅ false.

(** Three samples in two groups. *)
Definition exp_groups : Experiment :=
  mkExp [[1; 0]; [0; 1]; [1; 1]]
        (mkDF ["id"; "group"]
              [("S1", [Str "S1"; Str "1"]); ("S2", [Str "S2"; Str "2"]);
               ("S3", [Str "S3"; Str "1"])])
        two_features ∅ false.

(** Two features with a taxonomy column. *)
Definition exp_taxonomy : Experiment :=
  mkExp [[1; 1]] one_sample
        (mkDF ["id"; "taxonomy"]
              [("ACGT", [Str "ACGT"; Str "k__Bacteria"]);
               ("TTGA", [Str "TTGA"; Str "k__Archaea"])])
        ∅ false.

(** A data table with the samples S1, S2, S3 and a metadata table with
    S3, S1 and the extra S9, in this order. *)
Definition loaded_three : loaded :=
  mkLoaded ["S1"; "S2"; "S3"] ["F1"; "F2"] [[1; 0]; [0; 1]; [1; 1]] None.

(** Metadata for the three samples of the data and for one more. *)
Definition metadata_four : DataFrame :=
  mkDF ["id"; "group"]
       [("S3", [Str "S3"; Str "b"]); ("S9", [Str "S9"; Str "a"]);
        ("S1", [Str "S1"; Str "a"]); ("S2", [Str "S2"; Str "b"])].


(** Two samples with the same mean. *)
Definition exp_ties : Experiment :=
  mkExp [[1; 0]; [0; 1]]
        (mkDF ["id"] [("S1", [Str "S1"]); ("S2", [Str "S2"])])
        two_features ∅ false.

(** [np.mean] as a caller-supplied key. *)
Definition key_mean : sort_key := KeyFun (λ x, Ok (np_mean (vec_values x))).


(** ** transforming.binarize *)

(** [preprocessing.binarize(X, threshold, copy=False)]: entries above the
    threshold become 1, the others 0; a sparse matrix cannot be binarized
    with a negative threshold. *)
Definition sk_binarize (is_sparse : bool) (threshold : Qc) (m : matrix) : res matrix :=
  if no_entries m then Raise ValueError
  else if is_sparse && bool_decide (threshold < 0) then Raise ValueError
  else Ok ((λ r : list Qc, (λ x, if decide (threshold < x) then 1 else 0) <$> r) <$> m).

(** ['%f' % threshold] in the log message needs a number; the data are
    changed in place. *)
Definition binarize (exp : Experiment) (threshold : pyval) : res Experiment :=
  t ← as_num threshold;
  d ← sk_binarize (sparse exp) t (data exp);
  Ok (set_data exp d).

(** ** transforming.log_n *)

(** [exp.sparse = False] *)
Definition set_dense {E} (exp : Experiment_ E) : Experiment_ E :=
  mkExp (data exp) (sample_metadata exp) (feature_metadata exp) (exp_metadata exp) false.

Section LogTransform.
(** [np.log2] on the positive numbers; zero and the negative numbers give
    a non-finite result. *)
Variable np_log2 : Qc → Qc.

Definition log2_fl (x : Qc) : fl := if decide (0 < x) then Some (np_log2 x) else None.

Definition log_n (exp : Experiment) (n : pyval) : res (Experiment_ fl) :=
  n ← as_num n;
  let exp := set_dense exp in
  let capped := (λ r : list Qc, (λ x, if decide (x < n) then n else x) <$> r) <$> data exp in
  Ok (set_data exp ((λ r : list Qc, log2_fl <$> r) <$> capped)).
End LogTransform.

(** ** sorting.sort_by_metadata, sorting.sort_samples *)

Section MetadataSorting.
(** [util._argsort], the argsort of a column of metadata values. *)
Variable _argsort : list cell → list nat.

Definition sort_by_metadata (exp : Experiment) (field : string) (axis : Z) : res Experiment :=
  x ← (if decide (axis = 0%Z) then Ok (sample_metadata exp)
       else if decide (axis = 1%Z) then Ok (feature_metadata exp)
       else Raise ValueError);
  values ← df_column x field;
  reorder exp (Positions (_argsort values)) axis.

(** [sort_samples(exp, field, **kwargs)]: [kwargs] may carry [axis]. *)
Definition sort_samples (exp : Experiment) (field : string) (axis : option Z) : res Experiment :=
  sort_by_metadata exp field (default 0%Z axis).
End MetadataSorting.

(** A sparse experiment with a zero entry. *)
Definition exp_sparse : Experiment :=
  mkExp [[Qc_of_Z 5; 0]] one_sample two_features ∅ true.

(** The metadata table of [metadata_four], rows sorted. *)
Definition metadata_four_sorted : DataFrame :=
  mkDF ["id"; "group"]
       [("S1", [Str "S1"; Str "a"]); ("S2", [Str "S2"; Str "b"]);
        ("S3", [Str "S3"; Str "b"]); ("S9", [Str "S9"; Str "a"])].

(** * Properties *)

Ltac qc_eq := apply Qc_is_canon; vm_compute; reflexivity.
Ltac qc_lt := vm_compute; reflexivity.

(** ** normalize *)

Lemma qsum_scale (c : Qc) (r : list Qc) : qsum ((λ x, x * c) <$> r) = qsum r * c.
Proof.
  induction r as [|x r IH]; csimpl.
  - ring.
  - rewrite IH. ring.
Qed.

Lemma l1_norm_nonneg (r : list Qc) : 0 ≤ l1_norm r.
Proof.
  unfold l1_norm. induction r as [|x r IH]; csimpl.
  - apply Qcle_refl.
  - replace 0 with (0 + 0) by ring.
    apply Qcplus_le_compat; [apply Qcabs_nonneg | exact IH].
Qed.

Lemma l1_norm_of_nonneg (r : list Qc) : Forall (Qcle 0) r → l1_norm r = qsum r.
Proof.
  unfold l1_norm. induction 1 as [|x r Hx _ IH]; csimpl; [done|].
  by rewrite IH, Qcabs_pos.
Qed.

Lemma l1_norm_scale (c : Qc) (r : list Qc) :
  l1_norm ((λ x, x * c) <$> r) = l1_norm r * Qcabs c.
Proof.
  unfold l1_norm. rewrite <- qsum_scale, <- !list_fmap_compose.
  f_equal. apply list_fmap_ext. intros _ x _. simpl.
  by rewrite Qcabs_Qcmult.
Qed.

Lemma l1_norm_zero (r : list Qc) : l1_norm r = 0 ↔ Forall (eq 0) r.
Proof.
  unfold l1_norm. induction r as [|x r IH]; csimpl.
  - split; [constructor | done].
  - split.
    + intros H.
      assert (Hx : 0 ≤ Qcabs x) by apply Qcabs_nonneg.
      assert (Hr : 0 ≤ l1_norm r) by apply l1_norm_nonneg.
      unfold l1_norm in Hr.
      assert (Qcabs x = 0) as Hx0.
      { apply Qcle_antisym; [|done]. rewrite <- H.
        rewrite <- (Qcplus_0_r (Qcabs x)) at 1.
        apply Qcplus_le_compat; [apply Qcle_refl | done]. }
      constructor.
      * symmetry. by apply Qcabs_null.
      * apply IH. rewrite Hx0 in H. by rewrite Qcplus_0_l in H.
    + inversion 1; subst. rewrite (proj2 IH) by done.
      rewrite Qcabs_pos by apply Qcle_refl. ring.
Qed.

Lemma l1_normalize_row_zero (r : list Qc) : Forall (eq 0) r → l1_normalize_row r = r.
Proof.
  intros H. unfold l1_normalize_row, handle_zeros.
  rewrite (proj2 (l1_norm_zero r) H). rewrite decide_True by done.
  induction H as [|x r <- _ IH]; csimpl; [done|]. rewrite IH. f_equal.
Qed.

Lemma l1_normalize_row_norm (r : list Qc) :
  l1_norm r ≠ 0 → l1_norm (l1_normalize_row r) = 1.
Proof.
  intros H. unfold l1_normalize_row, handle_zeros. rewrite decide_False by done.
  unfold Qcdiv. rewrite l1_norm_scale.
  rewrite <- (Qcabs_pos (l1_norm r)) at 1 by apply l1_norm_nonneg.
  rewrite <- Qcabs_Qcmult, Qcmult_inv_r by done.
  by apply Qcabs_pos.
Qed.

Lemma l1_normalize_row_sum (r : list Qc) :
  Forall (Qcle 0) r → qsum r ≠ 0 → qsum (l1_normalize_row r) = 1.
Proof.
  intros Hpos Hsum. unfold l1_normalize_row, handle_zeros.
  rewrite l1_norm_of_nonneg by done. rewrite decide_False by done.
  unfold Qcdiv. rewrite qsum_scale. by apply Qcmult_inv_r.
Qed.

Lemma normalize_ok (exp : Experiment) (t : Qc) :
  0 < t → no_entries (data exp) = false →
  normalize exp (PNum t) 0
  = Ok (set_exp_metadata (set_data exp (mscale t (l1_normalize_row <$> data exp)))
                         "normalized" (PNum t)).
Proof.
  intros Ht Hne. unfold normalize, sk_normalize_l1. simpl.
  rewrite bool_decide_false by (by apply Qclt_not_le).
  simpl. by rewrite Hne.
Qed.

Lemma normalize_no_entries (exp : Experiment) (t : Qc) (axis : Z) :
  0 < t → no_entries (data exp) = true →
  normalize exp (PNum t) axis = Raise ValueError.
Proof.
  intros Ht Hne. unfold normalize, sk_normalize_l1. simpl.
  rewrite bool_decide_false by (by apply Qclt_not_le).
  simpl. by rewrite Hne.
Qed.

Lemma normalize_rejects (exp : Experiment) (total : pyval) (axis : Z) :
  match total with
  | PNum t => t ≤ 0
  | _ => True
  end →
  raises (normalize exp total axis).
Proof.
  unfold raises, normalize. destruct total as [|b|t|s]; simpl; intros H; eauto.
  rewrite bool_decide_true by done. eauto.
Qed.

Lemma normalize_row_lookup (exp : Experiment) (t : Qc) (i : nat) (r : list Qc) :
  data exp !! i = Some r →
  mscale t (l1_normalize_row <$> data exp) !! i = Some ((λ x, x * t) <$> l1_normalize_row r).
Proof.
  intros H. unfold mscale. rewrite !list_lookup_fmap, H. reflexivity.
Qed.

Lemma scale_zero_row (t : Qc) (r : list Qc) :
  Forall (eq 0) r → (λ x, x * t) <$> l1_normalize_row r = r.
Proof.
  intros Hz. rewrite l1_normalize_row_zero by done.
  induction Hz as [|x r <- _ IH]; csimpl; [done|]. rewrite IH. f_equal. ring.
Qed.

Lemma qsum_zero_row (r : list Qc) : Forall (eq 0) r → qsum r = 0.
Proof. induction 1 as [|x r <- _ IH]; csimpl; [done|]. rewrite IH. ring. Qed.

(** C2 (amended).  [normalize(total=T, axis=0)] with a number [T > 0], on
    an experiment with at least one sample and one feature, returns an
    experiment with [exp_metadata['normalized'] = T] and as many rows as
    before, in which every row that had no negative entry and a non-zero
    sum now sums to [T], and an all-zero row is still all zero; on an
    experiment without a sample or without a feature it raises
    [ValueError]; a [total] that is a bool, is not a number, or is a number
    [<= 0] raises. *)
Theorem normalize_rows_sum_to_total (exp : Experiment) :
  (∀ t, 0 < t → no_entries (data exp) = false →
     ∃ exp', normalize exp (PNum t) 0 = Ok exp'
       ∧ exp_metadata exp' !! "normalized" = Some (PNum t)
       ∧ length (data exp') = length (data exp)
       ∧ (∀ i r, data exp !! i = Some r → Forall (Qcle 0) r → qsum r ≠ 0 →
            ∃ r', data exp' !! i = Some r' ∧ qsum r' = t)
       ∧ (∀ i r, data exp !! i = Some r → Forall (eq 0) r → data exp' !! i = Some r))
  ∧ (∀ t, 0 < t → no_entries (data exp) = true →
       normalize exp (PNum t) 0 = Raise ValueError)
  ∧ (∀ total, match total with PNum t => t ≤ 0 | _ => True end →
       raises (normalize exp total 0)).
Proof.
  split; [|split; [intros t; apply normalize_no_entries|intros total; apply normalize_rejects]].
  intros t Ht Hne. eexists. split; [by apply normalize_ok|]. simpl.
  split; [apply lookup_insert_eq|]. split.
  { unfold mscale. by rewrite !length_fmap. }
  split.
  - intros i r Hi Hpos Hsum. eexists. split; [by apply normalize_row_lookup|].
    rewrite qsum_scale, l1_normalize_row_sum by done. ring.
  - intros i r Hi Hz. rewrite (normalize_row_lookup _ _ _ _ Hi). by rewrite scale_zero_row.
Qed.

(** The first row of the 2x3 example, normalized to 10. *)
Lemma normalize_rows_sum_witness :
  ∃ exp', normalize exp_zero_row (PNum (Qc_of_Z 10)) 0 = Ok exp'
    ∧ ∃ r', data exp' !! 0%nat = Some r' ∧ qsum r' = Qc_of_Z 10.
Proof.
  destruct (proj1 (normalize_rows_sum_to_total exp_zero_row) (Qc_of_Z 10))
    as (exp' & Hn & _ & _ & Hrows & _); [qc_lt|reflexivity|].
  exists exp'. split; [exact Hn|].
  apply (Hrows 0%nat [Qc_of_Z 1; Qc_of_Z 2; Qc_of_Z 3]).
  - reflexivity.
  - repeat constructor; by vm_compute.
  - intros H. apply (f_equal this) in H. vm_compute in H. discriminate.
Defined.

(** C2 as stated fails: the all-zero row of [[1,2,3],[0,0,0]] sums to 0,
    not to 10, after [normalize(total=10)]. *)
Lemma normalize_zero_row_counterexample :
  ¬ ∀ (exp : Experiment) (t : Qc), 0 < t →
      ∃ exp', normalize exp (PNum t) 0 = Ok exp'
        ∧ ∀ r', r' ∈ data exp' → qsum r' = t.
Proof.
  intros H. destruct (H exp_zero_row (Qc_of_Z 10)) as (exp' & Hn & Hrows); [qc_lt|].
  rewrite normalize_ok in Hn by (first [qc_lt|reflexivity]). injection Hn as <-.
  specialize (Hrows ((λ x, x * Qc_of_Z 10) <$> l1_normalize_row [0; 0; 0])).
  simpl in Hrows. 
  assert (Hin : ∀ (a b : list Qc), b ∈ [a; b]) by (intros; set_solver).
  specialize (Hrows (Hin _ _)).
  apply (f_equal this) in Hrows. vm_compute in Hrows. discriminate.
Qed.

(** C8 (amended).  [normalize(total=T, axis=0)] with [T > 0] on an
    experiment with at least one sample and one feature returns, and row
    by row: an all-zero row is left as it is (sum 0); a row with a
    non-zero entry is rescaled so that the absolute values of its entries
    sum to [T]; a row without negative entries and with a positive sum
    sums to [T].  On an experiment without a sample or without a feature
    it raises [ValueError]. *)
Theorem normalize_zero_rows_guarded (exp : Experiment) (t : Qc) :
  0 < t →
  (no_entries (data exp) = false →
     ∃ exp', normalize exp (PNum t) 0 = Ok exp'
       ∧ ∀ i r, data exp !! i = Some r →
           ∃ r', data exp' !! i = Some r'
             ∧ (Forall (eq 0) r → r' = r ∧ qsum r' = 0)
             ∧ (l1_norm r ≠ 0 → l1_norm r' = t)
             ∧ (Forall (Qcle 0) r → 0 < qsum r → qsum r' = t))
  ∧ (no_entries (data exp) = true → normalize exp (PNum t) 0 = Raise ValueError).
Proof.
  intros Ht. split; [|by apply normalize_no_entries].
  intros Hne. eexists. split; [by apply normalize_ok|]. simpl.
  intros i r Hi. eexists. split; [by apply normalize_row_lookup|].
  split; [|split].
  - intros Hz. rewrite scale_zero_row by done. split; [done|]. by apply qsum_zero_row.
  - intros Hn. rewrite l1_norm_scale, l1_normalize_row_norm by done.
    rewrite Qcabs_pos by (by apply Qclt_le_weak). ring.
  - intros Hpos Hsum. rewrite qsum_scale, l1_normalize_row_sum; [ring|done|].
    intros Heq. rewrite Heq in Hsum. by apply (Qclt_not_le _ _ Hsum).
Qed.

Lemma normalize_zero_rows_guarded_witness :
  ∃ exp', normalize exp_mixed_sign (PNum (Qc_of_Z 10)) 0 = Ok exp'
    ∧ data exp' !! 0%nat = Some [0; 0].
Proof.
  destruct (proj1 (normalize_zero_rows_guarded exp_mixed_sign (Qc_of_Z 10) ltac:(qc_lt)))
    as (exp' & Hn & Hrows); [reflexivity|].
  exists exp'. split; [exact Hn|].
  destruct (Hrows 0%nat [0; 0]) as (r' & Hr' & Hz & _); [reflexivity|].
  destruct Hz as [-> _]; [by repeat constructor|]. exact Hr'.
Defined.

(** C8 as stated fails: the row [3, -1] has the positive sum 2 and is
    rescaled to [7.5, -2.5], which sums to 5 and not to 10. *)
Lemma normalize_positive_sum_counterexample :
  ¬ ∀ (exp : Experiment) (t : Qc), 0 < t →
      ∃ exp', normalize exp (PNum t) 0 = Ok exp'
        ∧ ∀ i r, data exp !! i = Some r → 0 < qsum r →
            ∃ r', data exp' !! i = Some r' ∧ qsum r' = t.
Proof.
  intros H. destruct (H exp_mixed_sign (Qc_of_Z 10)) as (exp' & Hn & Hrows); [qc_lt|].
  rewrite normalize_ok in Hn by (first [qc_lt|reflexivity]). injection Hn as <-.
  destruct (Hrows 1%nat [Qc_of_Z 3; - 1]) as (r' & Hr' & Hsum); [reflexivity|qc_lt|].
  simpl in Hr'. injection Hr' as <-.
  apply (f_equal this) in Hsum. vm_compute in Hsum. discriminate.
Qed.

(** ** Fallible maps and selections *)

Lemma res_map_ok {A B} (f : A → res B) (g : A → B) (l : list A) :
  Forall (λ x, f x = Ok (g x)) l → res_map f l = Ok (g <$> l).
Proof.
  induction 1 as [|x l Hx _ IH]; [done|].
  unfold res_map in *. csimpl. rewrite Hx, IH. reflexivity.
Qed.

Lemma take_mask_ok {A} (mask : list bool) (l : list A) :
  length mask = length l → take_mask mask l = Ok (mask_filter mask l).
Proof. intros H. unfold take_mask. by rewrite decide_True. Qed.

Lemma mask_filter_fmap {A B} (f : A → B) (mask : list bool) (l : list A) :
  mask_filter mask (f <$> l) = f <$> mask_filter mask l.
Proof.
  revert l. induction mask as [|b mask IH]; intros [|x l]; csimpl; try done.
  destruct b; csimpl; by rewrite IH.
Qed.

(** ** rescale *)

Lemma fdiv_fl_assoc (x t : Qc) (m : fl) : fdiv_fl (x * t) m = fmul_fl x (fdiv_fl t m).
Proof.
  destruct m as [m|]; [|done]. unfold fdiv_fl, fmul_fl, fdiv. simpl.
  destruct (decide (m = 0)); simpl; [done|]. f_equal. unfold Qcdiv. ring.
Qed.

(** C9.  For a number [total] (zero and negative ones included) and
    either axis, [rescale] returns without an error; every entry of the
    result is the entry multiplied by the one scalar [total / mean], the
    mean being that of the per-row (axis 0) or per-column (axis 1) sums;
    [sample_metadata], [feature_metadata] and [exp_metadata] are the ones
    of the argument, so no ['normalized'] entry is recorded. *)
Theorem rescale_only_touches_data (exp : Experiment) (t : Qc) (axis : Z) :
  axis = 0%Z ∨ axis = 1%Z →
  ∃ exp' sums,
    rescale exp (PNum t) axis = Ok exp'
    ∧ sums = (if decide (axis = 0%Z) then row_sums (data exp)
              else row_sums (transpose (data exp)))
    ∧ data exp' = (λ r : list Qc, (λ x, fmul_fl x (fdiv_fl t (np_mean sums))) <$> r) <$> data exp
    ∧ sample_metadata exp' = sample_metadata exp
    ∧ feature_metadata exp' = feature_metadata exp
    ∧ exp_metadata exp' = exp_metadata exp
    ∧ exp_metadata exp' !! "normalized" = exp_metadata exp !! "normalized".
Proof.
  intros Hax. unfold rescale, np_sum_axis. simpl.
  destruct Hax as [-> | ->]; simpl.
  - eexists _, _. split; [reflexivity|]. split; [reflexivity|]. simpl.
    split; [|done]. apply list_fmap_ext. intros _ r _.
    apply list_fmap_ext. intros _ x _. apply fdiv_fl_assoc.
  - eexists _, _. split; [reflexivity|]. split; [reflexivity|]. simpl.
    split; [|done]. apply list_fmap_ext. intros _ r _.
    apply list_fmap_ext. intros _ x _. apply fdiv_fl_assoc.
Qed.

(** Rescaling [[1,2,3],[0,0,0]] to the negative total -3: the mean of the
    row sums is 3, every entry is multiplied by -1. *)
Lemma rescale_only_touches_data_witness :
  ∃ exp', rescale exp_zero_row (PNum (Qc_of_Z (-3))) 0 = Ok exp'
    ∧ data exp' = [[Some (- 1); Some (- 2); Some (Qc_of_Z (-3))]; [Some 0; Some 0; Some 0]]
    ∧ exp_metadata exp' = exp_metadata exp_zero_row.
Proof.
  destruct (rescale_only_touches_data exp_zero_row (Qc_of_Z (-3)) 0)
    as (exp' & sums & Hr & -> & Hd & _ & _ & Hm & _); [by left|].
  exists exp'. split; [exact Hr|]. split; [|exact Hm].
  rewrite Hd. simpl. unfold fmul_fl, fdiv_fl, np_mean, fdiv. simpl.
  repeat (f_equal; try qc_eq).
Defined.

(** ** normalize_by_subset_features *)

Lemma zip_with_fmap_diag {A B C} (f : A → B → C) (g : A → B) (l : list A) :
  zip_with f l (g <$> l) = (λ x, f x (g x)) <$> l.
Proof. induction l as [|x l IH]; csimpl; [done|]. by rewrite IH. Qed.

Lemma length_isin (index values : list string) : length (isin index values) = length index.
Proof. unfold isin. by rewrite length_fmap. Qed.

Lemma fdiv_finite (a b : Qc) : b ≠ 0 → fdiv a b = Some (a / b).
Proof. intros H. unfold fdiv. by rewrite decide_False. Qed.

(** C6 (amended).  On an aligned experiment, with a numeric total [T] and
    [negate=True], [normalize_by_subset_features] returns; every entry of a
    row, inside or outside [F], is [T] times the entry divided by the sum
    [s] of the row over the columns outside [F]; when [s] is not zero the
    result row is finite and its sum over the columns outside [F] is [T]. *)
Theorem normalize_by_subset_features_outside_sum (exp : Experiment) (F : list string) (t : Qc) :
  aligned exp →
  let outside := negb <$> isin (df_index (feature_metadata exp)) F in
  ∃ exp', normalize_by_subset_features exp F (PNum t) true = Ok exp'
    ∧ length (data exp') = length (data exp)
    ∧ ∀ i r, data exp !! i = Some r →
        let s := qsum (mask_filter outside r) in
        data exp' !! i = Some ((λ x, fdiv (t * x) s) <$> r)
        ∧ (s ≠ 0 → ∃ r', (λ x, fdiv (t * x) s) <$> r = Some <$> r'
                      ∧ qsum (mask_filter outside r') = t).
Proof.
  intros [_ Hcols] outside. unfold normalize_by_subset_features. fold outside.
  rewrite (res_map_ok _ (mask_filter outside)).
  2:{ eapply Forall_impl; [exact Hcols|]. intros r Hr. apply take_mask_ok.
      unfold outside, df_index. by rewrite length_fmap, length_isin, length_fmap. }
  simpl. eexists. split; [reflexivity|]. simpl.
  unfold row_sums. rewrite <- list_fmap_compose, zip_with_fmap_diag.
  split; [by rewrite length_fmap|].
  intros i r Hi. set (s := qsum (mask_filter outside r)). split; [by rewrite list_lookup_fmap, Hi|].
  intros Hs. exists ((λ x, x * (t / s)) <$> r). split.
  - rewrite <- list_fmap_compose. apply list_fmap_ext. intros _ x _. simpl.
    rewrite fdiv_finite by done. f_equal. unfold Qcdiv. ring.
  - rewrite mask_filter_fmap, qsum_scale. fold s. unfold Qcdiv.
    rewrite (Qcmult_comm t), Qcmult_assoc, Qcmult_inv_r by done. ring.
Qed.

(** The row [1, 1] with [F = [F1]] and total 10: the sum outside [F] is
    1, the row becomes [10, 10]; it sums to 10 outside [F] and to 20 as a
    whole. *)
Lemma normalize_by_subset_features_outside_sum_witness :
  ∃ exp', normalize_by_subset_features exp_ones ["F1"] (PNum (Qc_of_Z 10)) true = Ok exp'
    ∧ data exp' !! 0%nat = Some [Some (Qc_of_Z 10); Some (Qc_of_Z 10)].
Proof.
  destruct (normalize_by_subset_features_outside_sum exp_ones ["F1"] (Qc_of_Z 10))
    as (exp' & Hn & _ & Hrows).
  { split; [reflexivity|]. by repeat constructor. }
  exists exp'. split; [exact Hn|].
  destruct (Hrows 0%nat [1; 1]) as [Hr _]; [reflexivity|].
  rewrite Hr. simpl. unfold fdiv. simpl. repeat (f_equal; try qc_eq).
Defined.

(** C6 as stated fails: in the row [1, 0] with [F = [F1]] the sum outside
    [F] is zero, the division yields non-finite entries, and no sum of the
    result equals [T]. *)
Lemma normalize_by_subset_features_zero_outside_counterexample :
  ¬ ∀ (exp : Experiment) (F : list string) (t : Qc),
      aligned exp →
      ∃ exp', normalize_by_subset_features exp F (PNum t) true = Ok exp'
        ∧ ∀ r', r' ∈ data exp' →
            ∃ r'' : list Qc,
              mask_filter (negb <$> isin (df_index (feature_metadata exp)) F) r' = Some <$> r''
              ∧ qsum r'' = t.
Proof.
  intros H. destruct (H exp_zero_outside ["F1"] (Qc_of_Z 10)) as (exp' & Hn & Hrows).
  { split; [reflexivity|]. by repeat constructor. }
  vm_compute in Hn. injection Hn as <-.
  destruct (Hrows [None; None]) as (r'' & Hr & _); [set_solver|].
  vm_compute in Hr. by destruct r''.
Qed.

(** ** transform *)

Lemma split_dunder_step (c c' : ascii) (rest : string) :
  split_dunder (String c (String c' rest))
  = if decide (c = "_"%char ∧ c' = "_"%char) then "" :: split_dunder rest
    else cons_first c (split_dunder (String c' rest)).
Proof. reflexivity. Qed.

Lemma cons_first_nonempty (c : ascii) (ps : list string) : cons_first c ps ≠ [].
Proof. by destruct ps. Qed.

Lemma split_dunder_nonempty (k : string) : split_dunder k ≠ [].
Proof.
  destruct k as [|c [|c' rest]]; [done..|].
  rewrite split_dunder_step. destruct (decide _); [done|apply cons_first_nonempty].
Qed.

Lemma join_cons_first (c : ascii) (ps : list string) :
  ps ≠ [] → join_dunder (cons_first c ps) = String c (join_dunder ps).
Proof. destruct ps as [|p [|q ps]]; done. Qed.

(** Splitting loses nothing: joining the pieces gives the key back. *)
Lemma join_split_dunder (k : string) : join_dunder (split_dunder k) = k.
Proof.
  cut (join_dunder (split_dunder k) = k
       ∧ ∀ c, join_dunder (split_dunder (String c k)) = String c k); [by intros []|].
  induction k as [|c' rest [IH1 IH2]].
  - split; [done|]. intros c. reflexivity.
  - split; [apply IH2|]. intros c.
    rewrite split_dunder_step.
    destruct (decide _) as [[-> ->]|_].
    + pose proof (split_dunder_nonempty rest) as Hne.
      destruct (split_dunder rest) as [|p ps] eqn:E; [done|].
      change (join_dunder ("" :: p :: ps)) with ("" +:+ "__" +:+ join_dunder (p :: ps)).
      by rewrite IH1.
    + rewrite join_cons_first by apply split_dunder_nonempty. by rewrite IH2.
Qed.

Lemma split_dunder_key_of (k t p : string) : split_dunder k = [t; p] → k = key_of t p.
Proof. intros H. rewrite <- (join_split_dunder k), H. reflexivity. Qed.

Lemma params_get_insert (params : params_t) (t0 p0 : string) (v : pyval) (t p : string) :
  params_get (<[t0 := <[p0 := v]> (params_get params t0)]> params) t !! p
  = if decide ([t0; p0] = [t; p]) then Some v else params_get params t !! p.
Proof.
  unfold params_get. destruct (decide (t0 = t)) as [->|Ht].
  - rewrite lookup_insert_eq. simpl. destruct (decide (p0 = p)) as [->|Hp].
    + rewrite lookup_insert_eq. by rewrite decide_True.
    + rewrite lookup_insert_ne by done. rewrite decide_False by congruence. done.
  - rewrite lookup_insert_ne by done. rewrite decide_False by congruence. done.
Qed.

Lemma route_lookup (kwargs : list (string * pyval)) (params : params_t) :
  Forall routable kwargs.*1 →
  ∃ params', route kwargs params = Ok params'
    ∧ ∀ t p, params_get params' t !! p
             = match lookup_routed kwargs t p with
               | Some w => Some w
               | None => params_get params t !! p
               end.
Proof.
  revert params. induction kwargs as [|[k v] kwargs IH]; intros params Hk.
  - by exists params.
  - apply Forall_cons in Hk as [(t0 & p0 & Hsplit & Hp0) Hk]. simpl in *.
    rewrite Hsplit. rewrite decide_False by done.
    destruct (IH (<[t0 := <[p0 := v]> (params_get params t0)]> params) Hk)
      as (params' & -> & Hl).
    exists params'. split; [done|]. intros t p. rewrite Hl.
    destruct (lookup_routed kwargs t p); [done|].
    rewrite params_get_insert. by destruct (decide _).
Qed.

Lemma lookup_routed_unique (kwargs : list (string * pyval)) (t p : string) (v : pyval) :
  NoDup kwargs.*1 →
  lookup_routed kwargs t p = Some v
  ↔ (key_of t p, v) ∈ kwargs ∧ split_dunder (key_of t p) = [t; p].
Proof.
  revert v. induction kwargs as [|[k v0] kwargs IH]; intros v Hnd.
  - simpl. split; [done|]. intros [H _]. by apply elem_of_nil in H.
  - apply NoDup_cons in Hnd as [Hk Hnd].
    assert (IH' := λ v, IH v Hnd). clear IH. simpl.
    destruct (lookup_routed kwargs t p) as [w|] eqn:E.
    + destruct (proj1 (IH' w) eq_refl) as [Hw Hs]. split.
      * intros [= ->]. split; [|done]. apply elem_of_cons; by right.
      * intros [Hin _]. apply elem_of_cons in Hin as [[= <- <-]|Hin].
        -- exfalso. apply Hk. apply (list_elem_of_fmap_2 fst) in Hw. exact Hw.
        -- by apply IH'.
    + destruct (decide (split_dunder k = [t; p])) as [Hs|Hs].
      * pose proof (split_dunder_key_of _ _ _ Hs) as ->. split.
        -- intros [= ->]. split; [apply elem_of_cons; by left|done].
        -- intros [Hin _]. apply elem_of_cons in Hin as [[= <-]|Hin]; [done|].
           exfalso. apply Hk. apply (list_elem_of_fmap_2 fst) in Hin. exact Hin.
      * split; [done|]. intros [Hin Hs'].
        apply elem_of_cons in Hin as [[= <- <-]|Hin]; [done|].
        assert (None = Some v) as E' by (by apply IH'). done.
Qed.

Lemma route_rejects (kwargs : list (string * pyval)) (params : params_t) (k : string) :
  k ∈ kwargs.*1 → ¬ routable k → raises (route kwargs params).
Proof.
  revert params. induction kwargs as [|[k0 v] kwargs IH]; intros params Hin Hbad.
  - by apply elem_of_nil in Hin.
  - simpl in *. unfold raises.
    destruct (split_dunder k0) as [|t [|p [|q ps]]] eqn:E; eauto.
    destruct (decide (p = "inplace")) as [->|Hp]; eauto.
    apply elem_of_cons in Hin as [->|Hin].
    + exfalso. apply Hbad. by exists t, p.
    + by apply IH.
Qed.

Lemma run_steps_in_order (steps : list transformer) (params : params_t) (exp : Experiment) :
  run_steps steps params exp = apply_in_order steps params exp.
Proof.
  unfold apply_in_order. revert exp. induction steps as [|step steps IH]; intros exp; [done|].
  simpl. destruct (step_call step exp _) as [exp'|e]; simpl.
  - apply IH.
  - clear. induction steps as [|s steps IH]; [done|]. exact IH.
Qed.

(** C3 (amended).  For keyword arguments with distinct keys: if some key,
    split at ['__'], does not give exactly a transformer name and a
    parameter name, or gives the parameter name [inplace], the call raises;
    otherwise the routing succeeds, the step named [t] receives parameter
    [p] with value [v] exactly when the key [t__p] carries [v] (and splits
    into [t] and [p]), and the result is that of applying the steps one
    after the other in list order, each to the result of the previous one. *)
Theorem transform_routes_kwargs (exp : Experiment) (steps : list transformer)
    (kwargs : list (string * pyval)) :
  NoDup kwargs.*1 →
  (∀ k, k ∈ kwargs.*1 → ¬ routable k → raises (transform exp steps kwargs))
  ∧ (Forall routable kwargs.*1 →
       ∃ params, route kwargs ∅ = Ok params
         ∧ (∀ t p v, params_get params t !! p = Some v
                     ↔ (key_of t p, v) ∈ kwargs ∧ split_dunder (key_of t p) = [t; p])
         ∧ transform exp steps kwargs = apply_in_order steps params exp).
Proof.
  intros Hnd. split.
  - intros k Hin Hbad. destruct (route_rejects kwargs ∅ k Hin Hbad) as [e He].
    exists e. unfold transform. by rewrite He.
  - intros Hok. destruct (route_lookup kwargs ∅ Hok) as (params & Hr & Hl).
    exists params. split; [done|]. split.
    + intros t p v. rewrite Hl, <- lookup_routed_unique by done.
      destruct (lookup_routed kwargs t p); [done|].
      unfold params_get. rewrite lookup_empty. simpl. by rewrite lookup_empty.
    + unfold transform. rewrite Hr. apply run_steps_in_order.
Qed.

(** [transform(exp, [normalize], normalize__total=10)] is
    [normalize(exp, total=10)]. *)
Lemma transform_routes_kwargs_witness :
  transform exp_ones [step_normalize] [("normalize__total", PNum (Qc_of_Z 10))]
  = normalize exp_ones (PNum (Qc_of_Z 10)) 0.
Proof.
  destruct (transform_routes_kwargs exp_ones [step_normalize]
              [("normalize__total", PNum (Qc_of_Z 10))]) as [_ H].
  { repeat constructor; set_solver. }
  destruct H as (params & _ & Hl & ->).
  { repeat constructor. exists "normalize", "total". split; [reflexivity|done]. }
  unfold apply_in_order. simpl.
  rewrite (proj2 (Hl "normalize" "total" (PNum (Qc_of_Z 10)))); [reflexivity|].
  split; [|reflexivity]. apply elem_of_cons. by left.
Defined.

(** C3 as stated fails: the key [a___inplace] is ["a_" + "__inplace"],
    but splits into [a] and [_inplace], and the call does not raise. *)
Lemma transform_inplace_key_counterexample :
  ¬ ∀ (exp : Experiment) (steps : list transformer) (kwargs : list (string * pyval)),
      NoDup kwargs.*1 →
      (∃ name v, (name +:+ "__inplace", v) ∈ kwargs) →
      raises (transform exp steps kwargs).
Proof.
  intros H.
  destruct (H exp_ones [] [("a___inplace", PBool true)]) as [e He].
  - repeat constructor; set_solver.
  - exists "a_", (PBool true). apply elem_of_cons. by left.
  - vm_compute in He. discriminate.
Qed.

(** ** Selection by positions *)

Lemma take_positions_ok {A} (ps : list nat) (l : list A) :
  Forall (λ i, (i < length l)%nat) ps →
  ∃ l', take_positions ps l = Ok l' ∧ Some <$> l' = (λ i, l !! i) <$> ps.
Proof.
  induction 1 as [|i ps Hi _ (l' & Hl' & Hs)].
  - by exists [].
  - apply lookup_lt_is_Some in Hi as [x Hx].
    exists (x :: l'). unfold take_positions in *. csimpl. rewrite Hl'. simpl.
    rewrite Hx. split; [done|]. by rewrite Hs.
Qed.

Lemma res_map_take_positions (ps : list nat) (n : nat) (m : list (list Qc)) :
  Forall (λ i, (i < n)%nat) ps → Forall (λ r, length r = n) m →
  ∃ m', res_map (take_positions ps) m = Ok m'.
Proof.
  intros Hps. induction 1 as [|r m Hr _ (m' & Hm')].
  - by exists [].
  - destruct (take_positions_ok ps r) as (r' & Hr' & _); [by rewrite Hr|].
    exists (r' :: m'). unfold res_map in *. csimpl. by rewrite Hr', Hm'.
Qed.

Lemma lookup_fst_positions {A B} (rows rows' : list (A * B)) (ps : list nat) :
  Some <$> rows' = (λ i, rows !! i) <$> ps →
  Some <$> rows'.*1 = (λ i, rows.*1 !! i) <$> ps.
Proof.
  intros H. apply (f_equal (fmap (fmap fst))) in H.
  rewrite <- !list_fmap_compose in H. rewrite <- list_fmap_compose.
  etrans; [exact H|]. apply list_fmap_ext. intros _ i _. simpl.
  by rewrite list_lookup_fmap.
Qed.

(** The identifiers of an experiment reordered by in-range positions. *)
Lemma reorder_positions_index (exp : Experiment) (ps : list nat) (axis : Z) :
  axis = 0%Z ∨ axis = 1%Z → aligned exp →
  Forall (λ i, (i < length (axis_index exp axis))%nat) ps →
  ∃ exp', reorder exp (Positions ps) axis = Ok exp'
    ∧ Some <$> axis_index exp' axis = (λ i, axis_index exp axis !! i) <$> ps.
Proof.
  intros Hax [Hrows Hcols] Hps. unfold reorder, axis_index in *.
  destruct Hax as [-> | ->]; simpl in *.
  - unfold df_index in Hps. rewrite length_fmap in Hps.
    destruct (take_positions_ok ps (data exp)) as (d & -> & _); [by rewrite Hrows|].
    destruct (take_positions_ok ps (df_rows (sample_metadata exp))) as (rows & Hr & Hs); [done|].
    unfold df_select. simpl. rewrite Hr. simpl. eexists. split; [reflexivity|]. simpl.
    by apply lookup_fst_positions.
  - unfold df_index in Hps. rewrite length_fmap in Hps.
    destruct (res_map_take_positions ps _ (data exp) Hps Hcols) as (d & Hd).
    change (res_map (select (Positions ps)) (data exp))
      with (res_map (take_positions ps) (data exp)).
    rewrite Hd.
    destruct (take_positions_ok ps (df_rows (feature_metadata exp))) as (rows & Hr & Hs); [done|].
    unfold df_select. simpl. rewrite Hr. simpl. eexists. split; [reflexivity|]. simpl.
    by apply lookup_fst_positions.
Qed.

(** ** sort_ids *)

Lemma get_loc_Some (index : list string) (cid : string) (i : nat) :
  get_loc index cid = Some i → index !! i = Some cid.
Proof.
  unfold get_loc. destruct (list_find _ index) as [[j x]|] eqn:E; [|done].
  intros [= <-]. apply list_find_Some in E as (Hj & -> & _). exact Hj.
Qed.

Lemma get_loc_None (index : list string) (cid : string) :
  get_loc index cid = None ↔ cid ∉ index.
Proof.
  unfold get_loc. destruct (list_find _ index) as [[j x]|] eqn:E; simpl.
  - split; [done|]. intros Hn. apply list_find_Some in E as (Hj & -> & _).
    exfalso. apply Hn. by eapply list_elem_of_lookup_2.
  - split; [|done]. intros _ Hin. apply list_find_None in E.
    rewrite Forall_forall in E. by apply (E cid).
Qed.

Lemma get_loc_unique (index : list string) (cid : string) (i : nat) :
  NoDup index → index !! i = Some cid → get_loc index cid = Some i.
Proof.
  intros Hnd Hi. destruct (get_loc index cid) as [j|] eqn:E.
  - apply get_loc_Some in E. f_equal. by eapply NoDup_lookup.
  - apply get_loc_None in E. exfalso. apply E. by eapply list_elem_of_lookup_2.
Qed.

Lemma sort_ids_okpos_lookup (index ids : list string) :
  (λ i, index !! i) <$> sort_ids_okpos index ids = Some <$> filter (λ cid, cid ∈ index) ids.
Proof.
  induction ids as [|cid ids IH]; [done|]. simpl.
  destruct (get_loc index cid) as [pos|] eqn:E.
  - rewrite filter_cons_True.
    2:{ apply get_loc_Some in E. by eapply list_elem_of_lookup_2. }
    csimpl. rewrite IH. f_equal. by apply get_loc_Some.
  - rewrite filter_cons_False by (by apply get_loc_None). exact IH.
Qed.

Lemma sort_ids_okpos_elem (index ids : list string) (i : nat) :
  i ∈ sort_ids_okpos index ids ↔ ∃ cid, cid ∈ ids ∧ get_loc index cid = Some i.
Proof.
  induction ids as [|cid ids IH]; simpl.
  - split; [by intros ?%elem_of_nil|]. by intros (? & ?%elem_of_nil & _).
  - destruct (get_loc index cid) as [pos|] eqn:E.
    + rewrite elem_of_cons, IH. split.
      * intros [->|(c & Hc & Hl)]; [exists cid|exists c]; rewrite elem_of_cons; eauto.
      * intros (c & [->|Hc]%elem_of_cons & Hl); [left; congruence|right; eauto].
    + rewrite IH. split.
      * intros (c & Hc & Hl). exists c. rewrite elem_of_cons. eauto.
      * intros (c & [->|Hc]%elem_of_cons & Hl); [congruence|eauto].
Qed.

Lemma sort_ids_okpos_bound (index ids : list string) :
  Forall (λ i, (i < length index)%nat) (sort_ids_okpos index ids).
Proof.
  apply Forall_forall. intros i (cid & _ & Hl)%sort_ids_okpos_elem.
  apply get_loc_Some in Hl. by eapply lookup_lt_Some.
Qed.

(** Filtering the positions of a list by a predicate that agrees with a
    predicate on the elements selects those elements. *)
Lemma filter_positions {A} (l : list A) (k : nat) (P : nat → Prop) (Q : A → Prop)
    `{∀ i, Decision (P i)} `{∀ x, Decision (Q x)} :
  (∀ i x, l !! i = Some x → (P (k + i)%nat ↔ Q x)) →
  (λ i, l !! (i - k)%nat) <$> filter P (seq k (length l)) = Some <$> filter Q l.
Proof.
  revert k. induction l as [|x l IH]; intros k HPQ; [done|]. simpl.
  assert (Htail : (λ i, (x :: l) !! (i - k)%nat) <$> filter P (seq (S k) (length l))
                  = Some <$> filter Q l).
  { rewrite <- (IH (S k)).
    - apply list_fmap_ext. intros j i Hi.
      apply list_elem_of_lookup_2, list_elem_of_filter in Hi as [_ Hi].
      apply elem_of_seq in Hi. replace (i - k)%nat with (S (i - S k)) by lia. done.
    - intros i y Hy. rewrite <- (HPQ (S i) y Hy). by replace (k + S i)%nat with (S k + i)%nat by lia. }
  destruct (decide (Q x)) as [HQ|HQ].
  - rewrite filter_cons_True by (apply (HPQ 0%nat x eq_refl) in HQ; by rewrite Nat.add_0_r in HQ).
    rewrite (filter_cons_True Q) by done. csimpl. rewrite Nat.sub_diag. simpl.
    f_equal. exact Htail.
  - rewrite filter_cons_False.
    2:{ intros HP. apply HQ, (HPQ 0%nat x eq_refl). by rewrite Nat.add_0_r. }
    rewrite (filter_cons_False Q) by done. exact Htail.
Qed.

Lemma sort_ids_otherpos_lookup (index ids : list string) :
  NoDup index →
  (λ i, index !! i) <$> setdiff1d (seq 0 (length index)) (sort_ids_okpos index ids)
  = Some <$> filter (λ x, x ∉ ids) index.
Proof.
  intros Hnd. unfold setdiff1d.
  rewrite <- (filter_positions index 0 (λ i, i ∉ sort_ids_okpos index ids) (λ x, x ∉ ids)).
  - apply list_fmap_ext. intros _ i _. by rewrite Nat.sub_0_r.
  - intros i x Hi. simpl. rewrite sort_ids_okpos_elem. split.
    + intros Hn Hx. apply Hn. exists x. split; [done|]. by apply get_loc_unique.
    + intros Hx (cid & Hc & Hl). apply get_loc_Some in Hl. congruence.
Qed.

(** C4.  On an aligned experiment with unique identifiers, [sort_ids]
    returns an experiment whose identifiers along the axis are the
    elements of [ids] that the axis has, in the order of [ids], followed
    by the identifiers that are not in [ids], in their original order. *)
Theorem sort_ids_order (exp : Experiment) (ids : list string) (axis : Z) :
  axis = 0%Z ∨ axis = 1%Z → aligned exp → unique_ids exp →
  ∃ exp', sort_ids exp ids axis = Ok exp'
    ∧ axis_index exp' axis
      = filter (λ cid, cid ∈ axis_index exp axis) ids
        ++ filter (λ x, x ∉ ids) (axis_index exp axis).
Proof.
  intros Hax Hal [Hnd0 Hnd1].
  assert (Hnd : NoDup (axis_index exp axis)).
  { unfold axis_index. by destruct (decide _). }
  assert (Hidx : (if decide (axis = 0%Z) then df_index (sample_metadata exp)
                  else df_index (feature_metadata exp)) = axis_index exp axis) by done.
  unfold sort_ids. rewrite Hidx.
  destruct (reorder_positions_index exp
              (sort_ids_okpos (axis_index exp axis) ids
               ++ setdiff1d (seq 0 (length (axis_index exp axis)))
                            (sort_ids_okpos (axis_index exp axis) ids)) axis)
    as (exp' & Hr & Hi); [done..| |].
  { apply Forall_app. split; [apply sort_ids_okpos_bound|].
    apply Forall_forall. intros i [_ Hi%elem_of_seq]%list_elem_of_filter. lia. }
  exists exp'. split; [done|].
  apply (inj (fmap Some)). rewrite Hi, !fmap_app.
  by rewrite sort_ids_okpos_lookup, sort_ids_otherpos_lookup.
Qed.

(** The scenario of the spec: [sort_ids(['F3','F1'], axis=1)] on the
    features F1..F5 gives F3, F1, F2, F4, F5. *)
Lemma sort_ids_order_witness :
  ∃ exp', sort_ids exp_five ["F3"; "F1"] 1 = Ok exp'
    ∧ df_index (feature_metadata exp') = ["F3"; "F1"; "F2"; "F4"; "F5"].
Proof.
  destruct (sort_ids_order exp_five ["F3"; "F1"] 1) as (exp' & Hs & Hi).
  - by right.
  - split; [reflexivity|]. by repeat constructor.
  - split; cbn; apply (bool_decide_unpack _); by vm_compute.
  - exists exp'. split; [exact Hs|]. exact Hi.
Defined.

(** ** Selection by a mask *)

Lemma elem_of_mask_filter {A} (mask : list bool) (l : list A) (x : A) :
  x ∈ mask_filter mask l ↔ ∃ i, mask !! i = Some true ∧ l !! i = Some x.
Proof.
  revert l. induction mask as [|b mask IH]; intros [|y l]; simpl.
  - split; [by intros ?%elem_of_nil|]. by intros (i & ? & ?).
  - split; [by intros ?%elem_of_nil|]. by intros (i & ? & ?).
  - split; [by intros ?%elem_of_nil|]. by intros (i & ? & ?).
  - destruct b.
    + rewrite elem_of_cons, IH. split.
      * intros [->|(i & Hm & Hl)]; [by exists 0%nat|by exists (S i)].
      * intros ([|i] & Hm & Hl); simpl in *; [left; congruence|right; eauto].
    + rewrite IH. split.
      * intros (i & Hm & Hl). by exists (S i).
      * intros ([|i] & Hm & Hl); simpl in *; [done|eauto].
Qed.

Lemma mask_filter_none {A} (mask : list bool) (l : list A) :
  Forall (eq false) mask → mask_filter mask l = [].
Proof.
  intros H. revert l. induction H as [|b mask <- _ IH]; intros [|y l]; simpl; auto.
Qed.

Lemma res_map_take_mask (mask : list bool) (m : list (list Qc)) :
  Forall (λ r, length r = length mask) m →
  res_map (take_mask mask) m = Ok (mask_filter mask <$> m).
Proof.
  intros H. apply res_map_ok. eapply Forall_impl; [exact H|].
  intros r Hr. by apply take_mask_ok.
Qed.

(** An experiment reordered by a mask as long as the axis. *)
Lemma reorder_mask (exp : Experiment) (mask : list bool) (axis : Z) :
  axis = 0%Z ∨ axis = 1%Z → aligned exp →
  length mask = length (axis_index exp axis) →
  ∃ exp', reorder exp (Mask mask) axis = Ok exp'
    ∧ axis_index exp' axis = mask_filter mask (axis_index exp axis)
    ∧ (axis = 0%Z → data exp' = mask_filter mask (data exp)
                    ∧ feature_metadata exp' = feature_metadata exp)
    ∧ (axis = 1%Z → data exp' = mask_filter mask <$> data exp
                    ∧ sample_metadata exp' = sample_metadata exp).
Proof.
  intros Hax [Hrows Hcols] Hlen. unfold reorder, axis_index, df_index in *.
  destruct Hax as [-> | ->]; simpl in *; rewrite length_fmap in Hlen.
  - unfold take_mask, df_select. simpl. unfold take_mask.
    rewrite !decide_True by congruence. simpl.
    eexists. split; [reflexivity|]. simpl.
    split; [by rewrite mask_filter_fmap|]. split; [done|]. intros [=].
  - change (res_map (select (Mask mask)) (data exp))
      with (res_map (take_mask mask) (data exp)).
    rewrite res_map_take_mask.
    2:{ eapply Forall_impl; [exact Hcols|]. intros r Hr. simpl in Hr. congruence. }
    unfold df_select. simpl. unfold take_mask. rewrite decide_True by done. simpl.
    eexists. split; [reflexivity|]. simpl.
    split; [by rewrite mask_filter_fmap|]. split; [intros [=]|done].
Qed.

(** ** filter_by_metadata *)

Lemma df_column_ok (df : DataFrame) (field : string) :
  field ∈ df_columns df →
  ∃ col, df_column df field = Ok col ∧ length col = length (df_rows df).
Proof.
  intros Hin. unfold df_column, df_column_pos.
  destruct (list_find (λ c, c = field) (df_columns df)) as [[j c]|] eqn:E; simpl.
  - eexists. split; [reflexivity|]. by rewrite length_fmap.
  - apply list_find_None in E. rewrite Forall_forall in E. by destruct (E field Hin).
Qed.

Lemma selection_mask_length (sel : selection) (col : list cell) :
  selection_ok sel → length (selection_mask sel col) = length col.
Proof. destruct sel; simpl; [by rewrite length_fmap|auto]. Qed.

Lemma filter_by_metadata_mask (exp : Experiment) (field : string) (sel : selection)
    (axis : Z) (negate : bool) :
  axis = 0%Z ∨ axis = 1%Z → field ∈ df_columns (axis_metadata exp axis) →
  ∃ col, df_column (axis_metadata exp axis) field = Ok col
    ∧ length col = length (axis_index exp axis)
    ∧ filter_by_metadata exp field sel axis negate
      = reorder exp (Mask (if negate then negb <$> selection_mask sel col
                           else selection_mask sel col)) axis.
Proof.
  intros Hax Hf. destruct (df_column_ok _ _ Hf) as (col & Hc & Hl).
  exists col. split; [done|]. split.
  { rewrite Hl. unfold axis_index, axis_metadata, df_index.
    destruct (decide _); by rewrite length_fmap. }
  unfold filter_by_metadata, axis_metadata in *.
  destruct Hax as [-> | ->]; simpl in *; rewrite Hc; simpl; by destruct sel.
Qed.

(** C7.  On an aligned experiment with unique identifiers and a field of
    the metadata table: [filter_by_metadata] and its [negate=True] variant
    both return; no identifier is kept by both; every identifier of the
    axis is kept by one of them; and when the selection matches no entry,
    the result without [negate] has no identifier, hence no row (axis 0) or
    no column (axis 1), and the other axis is left as it was. *)
Theorem filter_by_metadata_partition (exp : Experiment) (field : string)
    (sel : selection) (axis : Z) :
  axis = 0%Z ∨ axis = 1%Z → aligned exp → unique_ids exp →
  field ∈ df_columns (axis_metadata exp axis) → selection_ok sel →
  ∃ kept dropped col,
    filter_by_metadata exp field sel axis false = Ok kept
    ∧ filter_by_metadata exp field sel axis true = Ok dropped
    ∧ df_column (axis_metadata exp axis) field = Ok col
    ∧ (∀ id, id ∈ axis_index kept axis → id ∉ axis_index dropped axis)
    ∧ (∀ id, id ∈ axis_index exp axis
             ↔ id ∈ axis_index kept axis ∨ id ∈ axis_index dropped axis)
    ∧ (Forall (eq false) (selection_mask sel col) →
         axis_index kept axis = []
         ∧ (axis = 0%Z → data kept = [] ∧ feature_metadata kept = feature_metadata exp)
         ∧ (axis = 1%Z → Forall (eq []) (data kept)
                         ∧ length (data kept) = length (data exp)
                         ∧ sample_metadata kept = sample_metadata exp)).
Proof.
  intros Hax Hal [Hnd0 Hnd1] Hf Hsel.
  assert (Hnd : NoDup (axis_index exp axis)).
  { unfold axis_index. by destruct (decide _). }
  destruct (filter_by_metadata_mask exp field sel axis false Hax Hf) as (col & Hc & Hl & Hk).
  destruct (filter_by_metadata_mask exp field sel axis true Hax Hf) as (col' & Hc' & _ & Hd).
  rewrite Hc in Hc'. injection Hc' as <-.
  set (mask := selection_mask sel col) in *.
  assert (Hm : length mask = length (axis_index exp axis)).
  { unfold mask. by rewrite selection_mask_length. }
  destruct (reorder_mask exp mask axis Hax Hal Hm) as (kept & Hrk & Hik & Hk0 & Hk1).
  destruct (reorder_mask exp (negb <$> mask) axis Hax Hal) as (dropped & Hrd & Hid & _).
  { by rewrite length_fmap. }
  exists kept, dropped, col. rewrite Hk, Hd. do 3 (split; [done|]).
  rewrite Hik, Hid. split; [|split].
  - intros id (i & Hmi & Hi)%elem_of_mask_filter (j & Hmj & Hj)%elem_of_mask_filter.
    assert (i = j) as -> by (by eapply NoDup_lookup).
    rewrite list_lookup_fmap, Hmi in Hmj. done.
  - intros id. rewrite !elem_of_mask_filter. split.
    + intros (i & Hi)%list_elem_of_lookup_1.
      destruct (lookup_lt_is_Some_2 mask i) as [b Hb].
      { rewrite Hm. by eapply lookup_lt_Some. }
      destruct b; [left|right]; exists i; [done|].
      by rewrite list_lookup_fmap, Hb.
    + intros [(i & _ & Hi)|(i & _ & Hi)]; by eapply list_elem_of_lookup_2.
  - intros Hnone. split; [by apply mask_filter_none|]. split.
    + intros H0. destruct (Hk0 H0) as [-> ->]. split; [by apply mask_filter_none|done].
    + intros H1. destruct (Hk1 H1) as [-> ->]. rewrite length_fmap. split; [|done].
      apply Forall_fmap, Forall_forall. intros r _. simpl.
      symmetry. by apply mask_filter_none.
Qed.

(** Samples of group 1 against the others, and the empty selection of
    group 3 (the edge case of the tests). *)
Lemma filter_by_metadata_partition_witness :
  ∃ kept dropped none,
    filter_by_metadata exp_groups "group" (Values [Str "1"]) 0 false = Ok kept
    ∧ filter_by_metadata exp_groups "group" (Values [Str "1"]) 0 true = Ok dropped
    ∧ filter_by_metadata exp_groups "group" (Values [Str "3"]) 0 false = Ok none
    ∧ (∀ id, id ∈ df_index (sample_metadata kept) → id ∉ df_index (sample_metadata dropped))
    ∧ data none = [].
Proof.
  destruct (filter_by_metadata_partition exp_groups "group" (Values [Str "1"]) 0)
    as (kept & dropped & col & Hk & Hd & _ & Hdisj & _).
  { by left. }
  { split; [reflexivity|]. by repeat constructor. }
  { split; cbn; apply (bool_decide_unpack _); by vm_compute. }
  { cbn. set_solver. }
  { exact I. }
  destruct (filter_by_metadata_partition exp_groups "group" (Values [Str "3"]) 0)
    as (none & _ & col' & Hn & _ & Hc & _ & _ & Hzero).
  { by left. }
  { split; [reflexivity|]. by repeat constructor. }
  { split; cbn; apply (bool_decide_unpack _); by vm_compute. }
  { cbn. set_solver. }
  { exact I. }
  exists kept, dropped, none. do 3 (split; [done|]). split; [exact Hdisj|].
  vm_compute in Hc. injection Hc as <-.
  destruct Hzero as (_ & H0 & _); [by repeat constructor|].
  by destruct (H0 eq_refl).
Defined.

(** ** save_fasta *)

Lemma string_app_assoc (a b c : string) : (a +:+ b) +:+ c = a +:+ (b +:+ c).
Proof.
  induction a as [|x a IH]; [done|].
  change (String x ((a +:+ b) +:+ c) = String x (a +:+ (b +:+ c))). by rewrite IH.
Qed.

Lemma string_app_nil_r (a : string) : a +:+ "" = a.
Proof.
  induction a as [|x a IH]; [done|].
  change (String x (a +:+ "") = String x a). by rewrite IH.
Qed.

(** The cell of a labelled row, when the label is unique. *)
Lemma df_at_unique (df : DataFrame) (j : nat) (label : string) (cells : list cell) :
  NoDup (df_index df) → (label, cells) ∈ df_rows df → df_at df j label = nth j cells NaN.
Proof.
  unfold df_at, df_index. destruct df as [cols rows]. simpl. clear cols.
  induction rows as [|[l c] rows IH]; intros Hnd Hin; [by apply elem_of_nil in Hin|].
  csimpl in *. apply NoDup_cons in Hnd as [Hl Hnd].
  apply elem_of_cons in Hin as [[= <- <-]|Hin].
  - by rewrite filter_cons_True.
  - rewrite filter_cons_False; [by apply IH|].
    simpl. intros ->. apply Hl. apply (list_elem_of_fmap_2 fst) in Hin. exact Hin.
Qed.

Lemma save_fasta_loop_spec (fmd : DataFrame) (idx : nat) (seqs : list string)
    (file : string) (num_skipped : nat) :
  let written := filter (λ p : nat * string, p.2 ∈ df_index fmd)
                        (zip (seq idx (length seqs)) seqs) in
  save_fasta_loop fmd (df_column_pos fmd "taxonomy") idx seqs file num_skipped
  = (file +:+ concat_str ((λ p : nat * string,
                             fasta_record (fasta_header p.1 (annotation fmd p.2)) p.2)
                          <$> written),
     (num_skipped + (length seqs - length written))%nat).
Proof.
  revert idx file num_skipped.
  induction seqs as [|cseq seqs IH]; intros idx file num_skipped; simpl.
  - by rewrite string_app_nil_r, Nat.add_0_r.
  - assert (Hle : (length (filter (λ p : nat * string, p.2 ∈ df_index fmd)
                                  (zip (seq (S idx) (length seqs)) seqs))
                   ≤ length seqs)%nat).
    { etrans; [apply length_filter|]. rewrite length_zip_with, length_seq. lia. }
    destruct (decide (cseq ∈ df_index fmd)) as [Hin|Hout].
    + rewrite filter_cons_True by done. rewrite IH. csimpl.
      rewrite string_app_assoc. unfold annotation.
      destruct (df_column_pos fmd "taxonomy"); f_equal; lia.
    + rewrite filter_cons_False by done. rewrite IH. f_equal. lia.
Qed.

(** C10.  With unique feature identifiers, the text written by
    [save_fasta] is one record per element of [seqs] that is a feature
    identifier, in the order of [seqs]; the record of the element at
    position [i] is [>i <annotation>], a newline, the sequence, a newline;
    the annotation is the feature's cell in the [taxonomy] column when the
    table has that column, and the sequence itself otherwise; elements
    that are no feature identifier are counted as skipped; without [seqs]
    all feature identifiers are written. *)
Theorem save_fasta_records (exp : Experiment) (seqs : list string) :
  unique_ids exp →
  let fmd := feature_metadata exp in
  let written := filter (λ p : nat * string, p.2 ∈ df_index fmd) (enumerate seqs) in
  ∃ annot : string → string,
    match df_column_pos fmd "taxonomy" with
    | Some j => ∀ cseq cells, (cseq, cells) ∈ df_rows fmd → annot cseq = py_str (nth j cells NaN)
    | None => ∀ cseq, annot cseq = cseq
    end
    ∧ (save_fasta exp (Some seqs)).1
      = concat_str ((λ p : nat * string,
                       ">" +:+ pretty p.1 +:+ " " +:+ annot p.2 +:+ nl +:+ p.2 +:+ nl)
                    <$> written)
    ∧ (save_fasta exp (Some seqs)).2 = (length seqs - length written)%nat
    ∧ (∀ i cseq, (i, cseq) ∈ written ↔ seqs !! i = Some cseq ∧ cseq ∈ df_index fmd)
    ∧ save_fasta exp None = save_fasta exp (Some (df_index fmd)).
Proof.
  intros [_ Hnd] fmd written. exists (annotation fmd). split; [|split; [|split; [|split]]].
  - unfold annotation. destruct (df_column_pos fmd "taxonomy") as [j|]; [|done].
    intros cseq cells Hin. f_equal. by apply df_at_unique.
  - unfold save_fasta. fold fmd. rewrite save_fasta_loop_spec.
    change (concat_str ((λ p : nat * string,
                           fasta_record (fasta_header p.1 (annotation fmd p.2)) p.2)
                        <$> written)
            = concat_str ((λ p : nat * string,
                             ">" +:+ pretty p.1 +:+ " " +:+ annotation fmd p.2
                                 +:+ nl +:+ p.2 +:+ nl) <$> written)).
    f_equal. apply list_fmap_ext. intros _ [i cseq] _. simpl.
    unfold fasta_record, fasta_header. by rewrite !string_app_assoc.
  - unfold save_fasta. fold fmd. by rewrite save_fasta_loop_spec.
  - intros i cseq. unfold written, enumerate. rewrite list_elem_of_filter. simpl.
    split.
    + intros [Hin Hz]. split; [|done].
      apply list_elem_of_lookup_1 in Hz as [k Hk].
      apply lookup_zip_with_Some in Hk as (a & b & [= <- <-] & Ha & Hb).
      apply lookup_seq in Ha as [-> _]. done.
    + intros [Hi Hin]. split; [done|]. apply list_elem_of_lookup. exists i.
      apply lookup_zip_with_Some. exists i, cseq. split; [done|]. split; [|done].
      apply lookup_seq. split; [done|]. by eapply lookup_lt_Some.
  - reflexivity.
Qed.

(** Three sequences, the second of which is no feature: records 0 and 2
    are written, with the taxonomy of the features. *)
Example save_fasta_example :
  save_fasta exp_taxonomy (Some ["TTGA"; "GGGG"; "ACGT"])
  = (">0 k__Archaea" +:+ nl +:+ "TTGA" +:+ nl +:+ ">2 k__Bacteria" +:+ nl +:+ "ACGT" +:+ nl,
     1%nat).
Proof. by vm_compute. Qed.

Lemma save_fasta_records_witness :
  (save_fasta exp_taxonomy (Some ["TTGA"; "GGGG"; "ACGT"])).2 = 1%nat
  ∧ ((2%nat, "ACGT") ∈ filter (λ p : nat * string, p.2 ∈ ["ACGT"; "TTGA"])
                              (enumerate ["TTGA"; "GGGG"; "ACGT"])).
Proof.
  destruct (save_fasta_records exp_taxonomy ["TTGA"; "GGGG"; "ACGT"])
    as (annot & _ & _ & Hskip & Hwritten & _).
  { split; cbn; apply (bool_decide_unpack _); by vm_compute. }
  split; [rewrite Hskip; reflexivity|].
  apply Hwritten. split; [reflexivity|]. cbn. apply elem_of_cons. by left.
Defined.

(** ** read *)

Lemma filter_none {A} (P : A → Prop) `{∀ x, Decision (P x)} (l : list A) :
  Forall (λ x, ¬ P x) l → filter P l = [].
Proof.
  induction 1 as [|x l Hx _ IH]; [done|]. by rewrite filter_cons_False.
Qed.

Lemma filter_all {A} (P : A → Prop) `{∀ x, Decision (P x)} (l : list A) :
  Forall P l → filter P l = l.
Proof.
  induction 1 as [|x l Hx _ IH]; [done|]. rewrite filter_cons_True by done. by rewrite IH.
Qed.

Lemma filter_label_unique (rows : list (string * list cell)) (l : string) :
  NoDup rows.*1 →
  filter (λ r, r.1 = l) rows = []
  ∨ ∃ c, filter (λ r : string * list cell, r.1 = l) rows = [(l, c)].
Proof.
  induction rows as [|[l0 c0] rows IH]; intros Hnd; [by left|].
  csimpl in Hnd. apply NoDup_cons in Hnd as [Hl Hnd].
  destruct (decide (l0 = l)) as [->|Hne].
  - right. exists c0. rewrite filter_cons_True by done. f_equal.
    apply filter_none, Forall_forall. intros [l' c'] Hin ?. simpl in *. subst.
    apply Hl. apply (list_elem_of_fmap_2 fst) in Hin. exact Hin.
  - rewrite filter_cons_False by done. by apply IH.
Qed.

Lemma filter_label_found (rows : list (string * list cell)) (l : string) :
  NoDup rows.*1 → l ∈ rows.*1 →
  ∃ c, filter (λ r : string * list cell, r.1 = l) rows = [(l, c)] ∧ (l, c) ∈ rows.
Proof.
  intros Hnd Hin. destruct (filter_label_unique rows l Hnd) as [E|(c & E)].
  - exfalso. apply list_elem_of_fmap in Hin as ([l' c'] & -> & Hin).
    assert (H : (l', c') ∈ filter (λ r : string * list cell, r.1 = l') rows)
      by (by apply list_elem_of_filter).
    simpl in E. rewrite E in H. by apply elem_of_nil in H.
  - exists c. split; [done|].
    assert (H : (l, c) ∈ filter (λ r : string * list cell, r.1 = l) rows)
      by (rewrite E; apply elem_of_cons; by left).
    by apply list_elem_of_filter in H as [_ H].
Qed.


Lemma df_loc_missing (df : DataFrame) (labels : list string) (l : string) :
  l ∈ labels → l ∉ df_index df → df_loc df labels = Raise KeyError.
Proof.
  intros Hin Hn. unfold df_loc. rewrite decide_False; [done|].
  rewrite Forall_forall. intros H. by apply Hn, H.
Qed.

(** With unique labels in the table, the aligned table has, label by
    label, the row that the table has for the label. *)
Lemma df_loc_rows (df t : DataFrame) (labels : list string) :
  NoDup (df_index df) → df_loc df labels = Ok t →
  df_columns t = df_columns df
  ∧ Forall2 (λ l r, r.1 = l ∧ r ∈ df_rows df) labels (df_rows t).
Proof.
  intros Hnd H. unfold df_loc in H.
  destruct (decide (Forall (λ l, l ∈ df_index df) labels)) as [Hall|]; [|done].
  injection H as <-. simpl. split; [done|].
  induction Hall as [|l labels Hl _ IH]; [constructor|]. csimpl.
  destruct (filter_label_found (df_rows df) l Hnd Hl) as (c & -> & Hc).
  simpl. by constructor.
Qed.

Lemma Forall2_labels_index (rows0 : list (string * list cell)) (labels : list string)
    (rows : list (string * list cell)) :
  Forall2 (λ l r, r.1 = l ∧ r ∈ rows0) labels rows → rows.*1 = labels.
Proof. induction 1 as [|l r labels rows [Hr _] _ IH]; csimpl; [done|]. by rewrite Hr, IH. Qed.

(** With unique labels in the table, the aligned table has exactly the
    labels asked for. *)
Lemma df_loc_index (df t : DataFrame) (labels : list string) :
  NoDup (df_index df) → df_loc df labels = Ok t → df_index t = labels.
Proof.
  intros Hnd H. destruct (df_loc_rows df t labels Hnd H) as [_ Hr].
  by eapply Forall2_labels_index.
Qed.

Lemma mask_filter_fmap_self {A} (f : A → bool) (l : list A) :
  mask_filter (f <$> l) l = filter (λ x, f x = true) l.
Proof.
  induction l as [|x l IH]; [done|]. csimpl. destruct (f x) eqn:E.
  - rewrite filter_cons_True by done. by rewrite IH.
  - rewrite filter_cons_False by (by rewrite E). exact IH.
Qed.

(** The filter that [read] computes keeps the identifiers that have
    metadata. *)
Lemma align_metadata_filter (axis : Z) (metadata : DataFrame) (ids : list string) :
  (align_metadata axis metadata ids).1.2
  = (λ i, bool_decide (i ∈ df_index metadata)) <$> ids.
Proof.
  unfold align_metadata. simpl. destruct (decide _) as [He|_].
  - transitivity ((λ _ : string, true) <$> ids).
    { clear. induction ids as [|i ids IH]; [done|]. csimpl. by rewrite <- IH. }
    apply list_fmap_ext. intros k i Hi. symmetry. apply bool_decide_eq_true.
    apply list_elem_of_lookup_2 in Hi.
    destruct (decide (i ∈ df_index metadata)) as [|Hn]; [done|].
    exfalso. apply (not_elem_of_empty (C:=gset string) i).
    rewrite <- He, elem_of_difference, !elem_of_list_to_set. done.
  - apply list_fmap_ext. intros k i Hi. apply list_elem_of_lookup_2 in Hi.
    apply bool_decide_ext. rewrite elem_of_difference, !elem_of_list_to_set.
    destruct (decide (i ∈ df_index metadata)); tauto.
Qed.

Lemma reorder_mask_samples (exp : Experiment) (mask : list bool) :
  length mask = length (data exp) → length mask = length (df_rows (sample_metadata exp)) →
  reorder exp (Mask mask) 0
  = Ok (mkExp (mask_filter mask (data exp))
              (mkDF (df_columns (sample_metadata exp))
                    (mask_filter mask (df_rows (sample_metadata exp))))
              (feature_metadata exp) (exp_metadata exp) (sparse exp)).
Proof.
  intros H1 H2. unfold reorder, df_select. simpl. unfold take_mask.
  by rewrite !decide_True by done.
Qed.

Lemma mask_filter_replicate_true {A} (l : list A) :
  mask_filter (replicate (length l) true) l = l.
Proof. induction l as [|x l IH]; [done|]. simpl. by rewrite IH. Qed.

Lemma reorder_all_true (exp : Experiment) (n : nat) :
  n = length (data exp) → n = length (df_rows (sample_metadata exp)) →
  reorder exp (Mask (replicate n true)) 0 = Ok exp.
Proof.
  intros H1 H2. rewrite reorder_mask_samples by (by rewrite length_replicate).
  rewrite H1 at 1. rewrite H2. rewrite !mask_filter_replicate_true.
  by destruct exp as [d [sc sr] fm em sp].
Qed.

Lemma normalize_frame (exp exp' : Experiment) (total : pyval) (axis : Z) :
  normalize exp total axis = Ok exp' →
  sample_metadata exp' = sample_metadata exp
  ∧ feature_metadata exp' = feature_metadata exp
  ∧ length (data exp') = length (data exp)
    ∨ axis ≠ 0%Z.
Proof.
  destruct (decide (axis = 0%Z)) as [->|]; [left|by right].
  unfold normalize, sk_normalize_l1 in H. destruct (isinstance_bool total); [done|].
  destruct (le_zero total) as [[|]|]; simpl in H; try done.
  destruct (as_num total) as [t|]; simpl in H; [|done].
  destruct (no_entries (data exp)); simpl in H; [done|].
  injection H as <-. simpl. unfold mscale. by rewrite !length_fmap.
Qed.



Section ReadingProperties.
Variable _read_biom : string → loaded.
Variable _read_qiime2 : string → loaded.
Variable _read_open_ms : string → bool → loaded.
Variable _read_table : string → DataFrame.
Variable get_file_md5 : string → string.
Variable get_data_md5 : list (list Qc) → string.

Local Abbreviation read_ := (read _read_biom _read_qiime2 _read_open_ms _read_table
                              get_file_md5 get_data_md5).
Local Abbreviation load_ := (load_data _read_biom _read_qiime2 _read_open_ms).



End ReadingProperties.



(** ** sort_by_data *)

Lemma res_map_length {A B} (f : A → res B) (l : list A) (l' : list B) :
  res_map f l = Ok l' → length l' = length l.
Proof.
  revert l'. induction l as [|x l IH]; intros l' H.
  - by injection H as <-.
  - unfold res_map in *. csimpl in H. destruct (f x) as [y|]; [|done].
    destruct (foldr _ _ l) as [rest|]; [|done]. simpl in H. injection H as <-.
    simpl. f_equal. by apply IH.
Qed.

Lemma take_positions_length {A} (ps : list nat) (l l' : list A) :
  take_positions ps l = Ok l' → length l' = length ps.
Proof.
  revert l'. induction ps as [|i ps IH]; intros l' H.
  - by injection H as <-.
  - unfold take_positions in *. csimpl in H.
    destruct (foldr _ _ ps) as [rest|]; [|done]. simpl in H.
    destruct (l !! i); [|done]. injection H as <-. simpl. f_equal. by apply IH.
Qed.

(** The number of vectors that [key] is applied to is the length of the
    axis. *)
Lemma key_vectors_length (exp : Experiment) (axis : Z) (subset : option (list nat))
    (m vectors : list (list Qc)) :
  axis = 0%Z ∨ axis = 1%Z → aligned exp →
  data_subset exp axis subset = Ok m → key_vectors exp axis m = Ok vectors →
  length vectors = length (axis_index exp axis).
Proof.
  intros Hax [Hrows _] Hm Hv. unfold key_vectors, data_subset, axis_index, df_index in *.
  destruct Hax as [-> | ->]; simpl in *; rewrite length_fmap; injection Hv as <-.
  - destruct subset as [ps|].
    + apply res_map_length in Hm. congruence.
    + injection Hm as <-. done.
  - unfold columns. by rewrite length_fmap, length_seq.
Qed.

(** C5, as far as the code goes.  When the subsetting and the key succeed
    with one value per row (axis 0) or column (axis 1), and [np.argsort]
    returns the positions in an ascending order of the values,
    [sort_by_data] is [reorder] with that order, reversed when [reverse]
    is set: the identifiers of the result are those at these positions.
    Which of the ascending orders is taken where values tie is left to
    [np.argsort]. *)
Theorem sort_by_data_follows_argsort (np_log2 : Qc → Qc) (argsort : list fl → list nat)
    (exp : Experiment) (axis : Z) (subset : option (list nat)) (f : vec → res fl)
    (reverse_order : bool) (m vectors : list (list Qc)) (values : list fl) :
  axis = 0%Z ∨ axis = 1%Z → aligned exp →
  data_subset exp axis subset = Ok m →
  key_vectors exp axis m = Ok vectors →
  (sparse exp = false → vectors ≠ []) →
  res_map (λ x, f ((if sparse exp then Sp else Arr) x)) vectors = Ok values →
  is_argsort values (argsort values) →
  let sort_pos := if reverse_order then reverse (argsort values) else argsort values in
  ∃ exp',
    sort_by_data np_log2 argsort exp axis subset (KeyFun f) reverse_order = Ok exp'
    ∧ reorder exp (Positions sort_pos) axis = Ok exp'
    ∧ Some <$> axis_index exp' axis = (λ i, axis_index exp axis !! i) <$> sort_pos
    ∧ sort_pos ≡ₚ seq 0 (length (axis_index exp axis)).
Proof.
  intros Hax Hal Hm Hv Hne Hvals [Hperm _] sort_pos.
  assert (Hlen : length values = length (axis_index exp axis)).
  { rewrite (res_map_length _ _ _ Hvals). by eapply key_vectors_length. }
  assert (Hp : sort_pos ≡ₚ seq 0 (length (axis_index exp axis))).
  { rewrite <- Hlen, <- Hperm. unfold sort_pos. destruct reverse_order; [|done].
    apply reverse_Permutation. }
  destruct (reorder_positions_index exp sort_pos axis Hax Hal) as (exp' & Hr & Hi).
  { apply Forall_forall. intros i Hi. rewrite Hp in Hi. apply elem_of_seq in Hi. lia. }
  exists exp'. split; [|done].
  unfold sort_by_data. rewrite Hm. simpl. rewrite Hv. simpl.
  assert ((if sparse exp then res_map (λ x, f (Sp x)) vectors
           else apply_along_axis (λ x, f (Arr x)) vectors) = Ok values) as ->; [|exact Hr].
  destruct (sparse exp); [done|].
  unfold apply_along_axis. destruct vectors; [by destruct Hne|done].
Qed.

(** *** Orders that [np.argsort] may return *)

Lemma fl_le_total (a b : fl) : fl_le a b ∨ fl_le b a.
Proof.
  destruct a as [x|], b as [y|]; simpl; auto.
  destruct (Qclt_le_dec x y) as [?%Qclt_le_weak|?]; auto.
Qed.

Lemma fl_le_trans (a b c : fl) : fl_le a b → fl_le b c → fl_le a c.
Proof.
  destruct a as [x|], b as [y|], c as [z|]; simpl; try done. apply Qcle_trans.
Qed.

Global Instance later_first_total : Total later_first.
Proof.
  intros [i a] [j b]. unfold later_first. simpl.
  destruct (decide (fl_le a b)) as [Hab|Hab], (decide (fl_le b a)) as [Hba|Hba].
  - destruct (Nat.le_ge_cases i j); [right|left]; done.
  - left. done.
  - right. done.
  - destruct (fl_le_total a b); done.
Qed.

Global Instance later_first_trans : Transitive later_first.
Proof.
  intros [i a] [j b] [k c]. unfold later_first. simpl. intros [Hab Hji] [Hbc Hkj].
  split; [by eapply fl_le_trans|]. intros Hca.
  assert (fl_le b a) by (by eapply fl_le_trans).
  assert (fl_le c b) by (by eapply fl_le_trans).
  etrans; [by apply Hkj|by apply Hji].
Qed.

Lemma StronglySorted_weaken {A} (R R' : relation A) (l : list A) :
  (∀ x y, x ∈ l → y ∈ l → R x y → R' x y) → StronglySorted R l → StronglySorted R' l.
Proof.
  intros HR Hs. induction Hs as [|x l Hs IH Hx]; constructor.
  - apply IH. intros y z Hy Hz. apply HR; apply elem_of_cons; by right.
  - apply Forall_forall. intros y Hy. rewrite Forall_forall in Hx.
    apply HR; [apply elem_of_cons; by left|apply elem_of_cons; by right|by apply Hx].
Qed.

Lemma elem_of_zip_seq (values : list fl) (p : nat * fl) :
  p ∈ zip (seq 0 (length values)) values → p.2 = value_at values p.1.
Proof.
  intros (k & Hk)%list_elem_of_lookup_1.
  apply lookup_zip_with_Some in Hk as (i & v & -> & Hi & Hv).
  apply lookup_seq in Hi as [-> _]. simpl. unfold value_at. by rewrite Hv.
Qed.

(** The order that favours later positions is one that [np.argsort] may
    return. *)
Lemma argsort_unstable_is_argsort (values : list fl) :
  is_argsort values (argsort_unstable values).
Proof.
  unfold is_argsort, argsort_unstable. split.
  - rewrite merge_sort_Permutation, fst_zip; [done|]. by rewrite length_seq.
  - apply (StronglySorted_fmap fst
             (λ p q : nat * fl, fl_le (value_at values p.1) (value_at values q.1)));
      [done|].
    eapply StronglySorted_weaken; [|apply (StronglySorted_merge_sort later_first)].
    intros p q Hp Hq [Hle _].
    rewrite merge_sort_Permutation in Hp, Hq.
    by rewrite <- (elem_of_zip_seq values p), <- (elem_of_zip_seq values q).
Qed.

(** The promise of [np.argsort] does not make the order stable: the
    routine that favours later positions keeps it and returns the two
    positions of a tie in reverse. *)
Lemma argsort_promise_allows_unstable :
  ∃ argsort : list fl → list nat,
    (∀ values, is_argsort values (argsort values))
    ∧ argsort [Some 1; Some 1] = [1; 0]%nat
    ∧ ¬ is_stable [Some 1; Some 1] (argsort [Some 1; Some 1]).
Proof.
  exists argsort_unstable. split; [apply argsort_unstable_is_argsort|].
  assert (H : argsort_unstable [Some 1; Some 1] = [1; 0]%nat) by (by vm_compute).
  split; [exact H|]. rewrite H. unfold is_stable. intros Hs.
  apply StronglySorted_inv in Hs as [_ Hs]. apply Forall_cons in Hs as [Hs _].
  assert (1 < 0)%nat; [|lia]. apply Hs. vm_compute. discriminate.
Qed.

(** Two samples with the same mean, sorted with the routine that favours
    later positions: the samples come out as S2, S1. *)
Lemma sort_by_data_follows_argsort_witness :
  ∃ exp', sort_by_data (λ x, x) argsort_unstable exp_ties 0 None key_mean false = Ok exp'
    ∧ df_index (sample_metadata exp') = ["S2"; "S1"].
Proof.
  destruct (sort_by_data_follows_argsort (λ x, x) argsort_unstable exp_ties 0 None
              (λ x, Ok (np_mean (vec_values x))) false
              (data exp_ties) (data exp_ties) (np_mean <$> data exp_ties))
    as (exp' & Hs & _ & Hi & _).
  - by left.
  - split; [reflexivity|]. by repeat constructor.
  - reflexivity.
  - reflexivity.
  - done.
  - reflexivity.
  - apply (bool_decide_unpack _). by vm_compute.
  - exists exp'. split; [exact Hs|].
    assert (Ha : argsort_unstable (np_mean <$> data exp_ties) = [1; 0]%nat) by (by vm_compute).
    rewrite Ha in Hi. apply (inj (fmap Some)). exact Hi.
Defined.

(** * Further properties *)

(** ** normalize, again *)

Lemma l1_normalize_row_length (r : list Qc) : length (l1_normalize_row r) = length r.
Proof. unfold l1_normalize_row. by rewrite length_fmap. Qed.

(** *** Columns *)

Lemma nth_seq_self {A} (l : list A) (d : A) : (λ i, nth i l d) <$> seq 0 (length l) = l.
Proof.
  apply list_eq. intros i. rewrite list_lookup_fmap.
  destruct (decide (i < length l)%nat) as [Hi|Hi].
  - rewrite lookup_seq_lt by done. simpl.
    destruct (lookup_lt_is_Some_2 l i Hi) as [x Hx]. rewrite Hx.
    f_equal. by apply nth_lookup_Some.
  - rewrite lookup_seq_ge by lia. simpl. symmetry. apply lookup_ge_None. lia.
Qed.

Lemma length_column (j : nat) (m : list (list Qc)) : length (column j m) = length m.
Proof. unfold column. by rewrite length_fmap. Qed.

Lemma nth_column (i j : nat) (m : list (list Qc)) (r : list Qc) :
  m !! i = Some r → nth i (column j m) 0 = nth j r 0.
Proof.
  intros H. unfold column. apply nth_lookup_Some with (d := 0).
  by rewrite list_lookup_fmap, H.
Qed.

(** Column [j] of the transpose of [m] is row [j] of [m]. *)
Lemma column_columns (j : nat) (m : list (list Qc)) (r : list Qc) :
  m !! j = Some r → column j (columns (length r) m) = r.
Proof.
  intros H. unfold columns, column at 1. rewrite <- list_fmap_compose.
  etrans; [|apply (nth_seq_self r 0)]. apply list_fmap_ext. intros _ i _. simpl.
  by apply nth_column.
Qed.

Lemma column_mscale (j : nat) (t : Qc) (m : list (list Qc)) :
  column j (mscale t m) = (λ x, x * t) <$> column j m.
Proof.
  unfold column, mscale. rewrite <- !list_fmap_compose.
  apply list_fmap_ext. intros _ r _. simpl.
  destruct (decide (j < length r)%nat) as [Hj|Hj].
  - destruct (lookup_lt_is_Some_2 r j Hj) as [x Hx].
    rewrite (nth_lookup_Some _ _ _ _ Hx).
    apply nth_lookup_Some. by rewrite list_lookup_fmap, Hx.
  - rewrite !nth_overflow; [ring|lia|rewrite length_fmap; lia].
Qed.

Lemma no_entries_false (m : list (list Qc)) (k : nat) :
  m ≠ [] → Forall (λ r, length r = k) m → (0 < k)%nat → no_entries m = false.
Proof.
  intros Hne Hk Hpos. destruct m as [|r m]; [done|]. simpl.
  apply Forall_cons in Hk as [Hr _]. apply bool_decide_false. intros ->. simpl in Hr. lia.
Qed.

(** X2.  [normalize(total=T, axis=1)] on a matrix with at least one row
    and at least one column, whose rows have the same length: a column
    without negative entries and with a non-zero sum sums to [T]
    afterwards. *)
Theorem normalize_columns_sum_to_total (exp : Experiment) (t : Qc) (k : nat) :
  0 < t → data exp ≠ [] → (0 < k)%nat → Forall (λ r, length r = k) (data exp) →
  ∃ exp', normalize exp (PNum t) 1 = Ok exp'
    ∧ exp_metadata exp' !! "normalized" = Some (PNum t)
    ∧ ∀ j, (j < k)%nat →
        Forall (Qcle 0) (column j (data exp)) → qsum (column j (data exp)) ≠ 0 →
        qsum (column j (data exp')) = t.
Proof.
  intros Ht Hne Hk0 Hk. unfold normalize, sk_normalize_l1. simpl.
  rewrite bool_decide_false by (by apply Qclt_not_le). simpl.
  rewrite (no_entries_false _ k) by done. simpl.
  eexists. split; [reflexivity|]. simpl. split; [apply lookup_insert_eq|].
  intros j Hj Hpos Hsum.
  assert (Hnc : ncols (data exp) = k).
  { destruct (data exp) as [|r m]; [done|]. simpl. by apply Forall_cons in Hk as [? _]. }
  rewrite column_mscale, qsum_scale.
  set (N := l1_normalize_row <$> transpose (data exp)).
  assert (HNj : N !! j = Some (l1_normalize_row (column j (data exp)))).
  { unfold N, transpose, columns. rewrite Hnc, !list_lookup_fmap, lookup_seq_lt by done. done. }
  assert (HN0 : ncols N = length (l1_normalize_row (column j (data exp)))).
  { unfold N, transpose, columns. rewrite Hnc. destruct k as [|k]; [lia|].
    simpl. by rewrite !l1_normalize_row_length, !length_column. }
  unfold transpose at 1. fold N. rewrite HN0, (column_columns _ _ _ HNj).
  rewrite l1_normalize_row_sum by done. ring.
Qed.

Lemma normalize_columns_sum_witness :
  ∃ exp', normalize exp_zero_row (PNum (Qc_of_Z 10)) 1 = Ok exp'
    ∧ qsum (column 1 (data exp')) = Qc_of_Z 10.
Proof.
  destruct (normalize_columns_sum_to_total exp_zero_row (Qc_of_Z 10) 3)
    as (exp' & Hn & _ & Hcols).
  - qc_lt.
  - done.
  - lia.
  - by repeat constructor.
  - exists exp'. split; [exact Hn|]. apply Hcols.
    + lia.
    + repeat constructor; by vm_compute.
    + intros H. apply (f_equal this) in H. vm_compute in H. discriminate.
Defined.

(** ** rescale, again *)

Lemma qsum_row_sums_scale (c : Qc) (m : list (list Qc)) :
  qsum (row_sums ((λ r : list Qc, (λ x, x * c) <$> r) <$> m)) = qsum (row_sums m) * c.
Proof.
  unfold row_sums. rewrite <- list_fmap_compose.
  induction m as [|r m IH]; csimpl; [ring|].
  rewrite IH, qsum_scale. ring.
Qed.

(** X3.  When the mean of the sample sums is a non-zero number, [rescale]
    leaves finite data whose sample sums have the mean [total]. *)
Theorem rescale_mean_is_total (exp : Experiment) (t mean : Qc) :
  np_mean (row_sums (data exp)) = Some mean → mean ≠ 0 →
  ∃ exp' (d : list (list Qc)),
    rescale exp (PNum t) 0 = Ok exp'
    ∧ data exp' = (λ r : list Qc, Some <$> r) <$> d
    ∧ length d = length (data exp)
    ∧ np_mean (row_sums d) = Some t.
Proof.
  intros Hmean Hnz. unfold rescale, np_sum_axis. simpl. rewrite Hmean.
  exists (set_data exp ((λ r : list Qc, (λ x, fdiv_fl (x * t) (Some mean)) <$> r) <$> data exp)),
         ((λ r : list Qc, (λ x, x * (t / mean)) <$> r) <$> data exp).
  split; [done|]. simpl. split; [|split].
  - rewrite <- list_fmap_compose. apply list_fmap_ext. intros _ r _. simpl.
    rewrite <- list_fmap_compose. apply list_fmap_ext. intros _ x _. simpl.
    rewrite fdiv_finite by done. f_equal. unfold Qcdiv. ring.
  - by rewrite length_fmap.
  - unfold np_mean in *. unfold row_sums at 2. rewrite !length_fmap.
    unfold row_sums in Hmean at 2. rewrite length_fmap in Hmean.
    rewrite qsum_row_sums_scale. unfold fdiv in *.
    destruct (decide (Qc_of_Z (Z.of_nat (length (data exp))) = 0)) as [|Hn]; [done|].
    injection Hmean as Hmean. f_equal. rewrite <- Hmean in *. unfold Qcdiv in *.
    set (n := Qc_of_Z _) in *. set (s := qsum _) in *.
    assert (s ≠ 0) by (intros Hs; apply Hnz; rewrite Hs; ring).
    field. repeat split; done.
Qed.

Lemma rescale_mean_is_total_witness :
  ∃ exp' (d : list (list Qc)),
    rescale exp_zero_row (PNum (Qc_of_Z 10)) 0 = Ok exp'
    ∧ data exp' = (λ r : list Qc, Some <$> r) <$> d
    ∧ np_mean (row_sums d) = Some (Qc_of_Z 10).
Proof.
  destruct (rescale_mean_is_total exp_zero_row (Qc_of_Z 10) (Qc_of_Z 3))
    as (exp' & d & Hr & Hd & _ & Hm).
  - unfold np_mean, fdiv. simpl. f_equal. qc_eq.
  - intros H. apply (f_equal this) in H. vm_compute in H. discriminate.
  - by exists exp', d.
Defined.

(** ** normalize_by_subset_features, again *)

Lemma normalize_by_subset_features_rows (exp : Experiment) (F : list string) (t : Qc)
    (negate : bool) :
  aligned exp →
  let mask := if negate then negb <$> isin (df_index (feature_metadata exp)) F
              else isin (df_index (feature_metadata exp)) F in
  normalize_by_subset_features exp F (PNum t) negate
  = Ok (set_exp_metadata
          (set_data exp ((λ r : list Qc, (λ x, fdiv (t * x) (qsum (mask_filter mask r))) <$> r)
                         <$> data exp))
          "normalized" (PNum t)).
Proof.
  intros [_ Hcols] mask. unfold normalize_by_subset_features. fold mask.
  rewrite (res_map_ok _ (mask_filter mask)).
  2:{ eapply Forall_impl; [exact Hcols|]. intros r Hr. apply take_mask_ok.
      unfold mask, df_index. destruct negate; by rewrite ?length_fmap, length_isin, length_fmap. }
  simpl. unfold row_sums. by rewrite <- list_fmap_compose, zip_with_fmap_diag.
Qed.

(** X4.  With [negate=False] the rows are divided by their sum over the
    features of [F]: where that sum is not zero, the result row is finite
    and sums to [T] over the features of [F]. *)
Theorem normalize_by_subset_features_inside_sum (exp : Experiment) (F : list string) (t : Qc) :
  aligned exp →
  let inside := isin (df_index (feature_metadata exp)) F in
  ∃ exp', normalize_by_subset_features exp F (PNum t) false = Ok exp'
    ∧ exp_metadata exp' !! "normalized" = Some (PNum t)
    ∧ ∀ i r, data exp !! i = Some r → qsum (mask_filter inside r) ≠ 0 →
        ∃ r', data exp' !! i = Some (Some <$> r') ∧ qsum (mask_filter inside r') = t.
Proof.
  intros Hal inside. eexists. split; [by apply normalize_by_subset_features_rows|].
  simpl. split; [apply lookup_insert_eq|]. fold inside.
  intros i r Hi Hs. set (s := qsum (mask_filter inside r)) in *.
  exists ((λ x, x * (t / s)) <$> r). split.
  - rewrite list_lookup_fmap, Hi. simpl. f_equal.
    rewrite <- list_fmap_compose. apply list_fmap_ext. intros _ x _. simpl.
    rewrite fdiv_finite by done. f_equal. unfold s, Qcdiv. ring.
  - rewrite mask_filter_fmap, qsum_scale. fold s. unfold Qcdiv.
    rewrite (Qcmult_comm t), Qcmult_assoc, Qcmult_inv_r by done. ring.
Qed.

Lemma normalize_by_subset_features_inside_sum_witness :
  ∃ exp', normalize_by_subset_features exp_ones ["F1"] (PNum (Qc_of_Z 10)) false = Ok exp'
    ∧ ∃ r', data exp' !! 0%nat = Some (Some <$> r')
            ∧ qsum (mask_filter [true; false] r') = Qc_of_Z 10.
Proof.
  destruct (normalize_by_subset_features_inside_sum exp_ones ["F1"] (Qc_of_Z 10))
    as (exp' & Hn & _ & Hrows).
  { split; [reflexivity|]. by repeat constructor. }
  exists exp'. split; [exact Hn|]. apply (Hrows 0%nat [1; 1]); [reflexivity|].
  intros H. apply (f_equal this) in H. vm_compute in H. discriminate.
Defined.





(** ** transform, again *)

Lemma run_steps_app (steps1 steps2 : list transformer) (params : params_t) (exp : Experiment) :
  run_steps (steps1 ++ steps2) params exp
  = (e ← run_steps steps1 params exp; run_steps steps2 params e).
Proof.
  revert exp. induction steps1 as [|step steps1 IH]; intros exp; [done|].
  simpl. destruct (step_call step exp _) as [exp'|e]; simpl; [apply IH|done].
Qed.

(** X6.  A pipeline can be cut anywhere: running the steps [steps1 ++
    steps2] is running [steps1] and then [steps2] on the result, with the
    same keyword arguments; an error of the first part is the error of the
    whole. *)
Theorem transform_app (exp : Experiment) (steps1 steps2 : list transformer)
    (kwargs : list (string * pyval)) :
  transform exp (steps1 ++ steps2) kwargs
  = (e ← transform exp steps1 kwargs; transform e steps2 kwargs).
Proof.
  unfold transform. destruct (route kwargs ∅) as [params|e]; simpl; [|done].
  rewrite run_steps_app. by destruct (run_steps steps1 params exp).
Qed.

Lemma lookup_routed_key (kwargs : list (string * pyval)) (t p : string) (v : pyval) :
  lookup_routed kwargs t p = Some v → ∃ k, k ∈ kwargs.*1 ∧ split_dunder k = [t; p].
Proof.
  induction kwargs as [|[k v0] kwargs IH]; [done|]. simpl.
  destruct (lookup_routed kwargs t p) as [w|].
  - intros Hw. destruct (IH Hw) as (k' & Hin & Hk'). exists k'. split; [|done].
    apply elem_of_cons. by right.
  - destruct (decide (split_dunder k = [t; p])) as [Hk|]; [|done].
    intros _. exists k. split; [|done]. apply elem_of_cons. by left.
Qed.

Lemma run_steps_params (steps : list transformer) (params1 params2 : params_t)
    (exp : Experiment) :
  (∀ step, step ∈ steps →
     params_get params1 (step_name step) = params_get params2 (step_name step)) →
  run_steps steps params1 exp = run_steps steps params2 exp.
Proof.
  revert exp. induction steps as [|step steps IH]; intros exp H; [done|]. simpl.
  rewrite (H step) by (apply elem_of_cons; by left).
  destruct (step_call step exp _) as [exp'|e]; simpl; [|done].
  apply IH. intros step' Hin. apply H. apply elem_of_cons. by right.
Qed.

(** X7.  Keywords addressed to a transformer that is not among the steps
    (a misspelt name, say) are ignored without an error: when every key
    splits into a transformer name and a parameter name other than
    [inplace], and no key names one of the steps, the result is that of
    the call without keywords. *)
Theorem transform_ignores_unused_keywords (exp : Experiment) (steps : list transformer)
    (kwargs : list (string * pyval)) :
  Forall routable kwargs.*1 →
  (∀ k t p, k ∈ kwargs.*1 → split_dunder k = [t; p] → t ∉ step_name <$> steps) →
  transform exp steps kwargs = transform exp steps [].
Proof.
  intros Hok Hunused. unfold transform.
  destruct (route_lookup kwargs ∅ Hok) as (params & -> & Hl). simpl.
  apply run_steps_params. intros step Hstep. apply map_eq. intros p.
  rewrite Hl. destruct (lookup_routed kwargs (step_name step) p) as [w|] eqn:E; [|done].
  exfalso. destruct (lookup_routed_key _ _ _ _ E) as (k & Hin & Hk).
  apply (Hunused k _ _ Hin Hk). by apply list_elem_of_fmap_2.
Qed.

(** [transform(exp, [normalize], normalise__total=10)] normalizes to the
    default total. *)
Lemma transform_ignores_unused_keywords_witness :
  transform exp_ones [step_normalize] [("normalise__total", PNum (Qc_of_Z 10))]
  = normalize exp_ones (PNum (Qc_of_Z 10000)) 0.
Proof.
  rewrite (transform_ignores_unused_keywords exp_ones [step_normalize]
             [("normalise__total", PNum (Qc_of_Z 10))]).
  - reflexivity.
  - repeat constructor. exists "normalise", "total". split; [reflexivity|done].
  - intros k t p Hin Hk. apply list_elem_of_singleton in Hin. subst k.
    vm_compute in Hk. injection Hk as <- _. intros Hin.
    apply list_elem_of_singleton in Hin. discriminate.
Defined.

(** ** binarize *)

Lemma binarize_ok (exp : Experiment) (t : Qc) :
  no_entries (data exp) = false →
  ¬ (sparse exp = true ∧ t < 0) →
  binarize exp (PNum t)
  = Ok (set_data exp ((λ r : list Qc, (λ x, if decide (t < x) then 1 else 0) <$> r)
                      <$> data exp)).
Proof.
  intros Hne H. unfold binarize, sk_binarize. simpl. rewrite Hne.
  destruct (sparse exp) eqn:Es; simpl; [|done].
  rewrite bool_decide_false; [done|]. intros Ht. by apply H.
Qed.

Lemma no_entries_fmap (f : Qc → Qc) (m : matrix) :
  no_entries ((λ r : list Qc, f <$> r) <$> m) = no_entries m.
Proof.
  destruct m as [|r m]; [done|]. simpl. destruct r; [done|].
  rewrite !bool_decide_false; done.
Qed.

(** X8.  [binarize] refuses data without a row or without a column, and a
    negative threshold on sparse data; otherwise every entry becomes 1 if
    it is above the threshold and 0 if not, the metadata stay as they are,
    and for a threshold in [0, 1) binarizing the result again changes
    nothing. *)
Theorem binarize_zero_one (exp : Experiment) (t : Qc) :
  (no_entries (data exp) = true → binarize exp (PNum t) = Raise ValueError)
  ∧ (sparse exp = true → t < 0 → binarize exp (PNum t) = Raise ValueError)
  ∧ (no_entries (data exp) = false → ¬ (sparse exp = true ∧ t < 0) →
       ∃ exp', binarize exp (PNum t) = Ok exp'
         ∧ (∀ i r, data exp !! i = Some r →
              data exp' !! i = Some ((λ x, if decide (t < x) then 1 else 0) <$> r))
         ∧ Forall (Forall (λ x, x = 0 ∨ x = 1)) (data exp')
         ∧ sample_metadata exp' = sample_metadata exp
         ∧ feature_metadata exp' = feature_metadata exp
         ∧ exp_metadata exp' = exp_metadata exp
         ∧ (0 ≤ t → t < 1 → binarize exp' (PNum t) = Ok exp')).
Proof.
  split; [|split].
  - intros Hne. unfold binarize, sk_binarize. simpl. by rewrite Hne.
  - intros Hs Ht. unfold binarize, sk_binarize. simpl.
    destruct (no_entries (data exp)); [done|]. rewrite Hs. simpl.
    by rewrite bool_decide_true.
  - intros Hne H. eexists. split; [by apply binarize_ok|]. simpl. split; [|split].
    + intros i r Hi. by rewrite list_lookup_fmap, Hi.
    + apply Forall_fmap, Forall_forall. intros r _. simpl.
      apply Forall_fmap, Forall_forall. intros x _. simpl.
      destruct (decide (t < x)); auto.
    + do 3 (split; [done|]). intros H0 H1. rewrite binarize_ok.
      2:{ simpl. by rewrite no_entries_fmap. }
      2:{ simpl. intros [_ Ht]. by apply (Qclt_not_le _ _ Ht). }
      unfold set_data. simpl. f_equal. f_equal.
      rewrite <- list_fmap_compose. apply list_fmap_ext. intros _ r _. simpl.
      rewrite <- list_fmap_compose. apply list_fmap_ext. intros _ x _. simpl.
      destruct (decide (t < x)).
      * by rewrite decide_True.
      * rewrite decide_False; [done|]. by apply Qcle_not_lt.
Qed.

Lemma binarize_zero_one_witness :
  binarize exp_sparse (PNum (- 1)) = Raise ValueError
  ∧ ∃ exp', binarize exp_sparse (PNum 0) = Ok exp' ∧ data exp' = [[1; 0]]
            ∧ binarize exp' (PNum 0) = Ok exp'.
Proof.
  split.
  - apply (proj1 (proj2 (binarize_zero_one exp_sparse (- 1)))); [reflexivity|qc_lt].
  - destruct (proj2 (proj2 (binarize_zero_one exp_sparse 0)))
      as (exp' & Hb & Hrows & _ & _ & _ & _ & Hid).
    { reflexivity. }
    { intros [_ H]. vm_compute in H. discriminate. }
    exists exp'. split; [exact Hb|]. split; [|apply Hid; by vm_compute].
    pose proof (Hrows 0%nat [Qc_of_Z 5; 0] eq_refl) as H0.
    rewrite binarize_ok in Hb
      by (first [reflexivity | intros [_ H]; vm_compute in H; discriminate]).
    injection Hb as <-. reflexivity.
Defined.

(** ** log_n *)

(** X9.  [log_n] stores the data dense and leaves the metadata as they
    are.  With a positive cap [n] every entry of the result is finite: it
    is the logarithm of the entry, or of [n] for an entry below [n].  With
    a cap that is not positive, an entry 0 becomes non-finite. *)
Theorem log_n_caps (np_log2 : Qc → Qc) (exp : Experiment) (n : Qc) :
  ∃ exp', log_n np_log2 exp (PNum n) = Ok exp'
    ∧ sparse exp' = false
    ∧ sample_metadata exp' = sample_metadata exp
    ∧ feature_metadata exp' = feature_metadata exp
    ∧ exp_metadata exp' = exp_metadata exp
    ∧ (0 < n → ∀ i r, data exp !! i = Some r →
         data exp' !! i
         = Some ((λ x, Some (np_log2 (if decide (x < n) then n else x))) <$> r))
    ∧ (n ≤ 0 → ∀ i r, data exp !! i = Some r →
         ∃ r', data exp' !! i = Some r' ∧ ∀ j, r !! j = Some 0 → r' !! j = Some None).
Proof.
  eexists. split; [reflexivity|]. simpl. do 4 (split; [done|]). split.
  - intros Hn i r Hi. rewrite !list_lookup_fmap, Hi. simpl. f_equal.
    rewrite <- list_fmap_compose. apply list_fmap_ext. intros _ x _. simpl.
    unfold log2_fl. rewrite decide_True; [done|].
    destruct (decide (x < n)) as [|Hx]; [done|].
    eapply Qclt_le_trans; [exact Hn|]. by apply Qcnot_lt_le.
  - intros Hn i r Hi. rewrite !list_lookup_fmap, Hi. simpl. eexists. split; [done|].
    intros j Hj. rewrite !list_lookup_fmap, Hj. simpl. f_equal.
    rewrite decide_False by (by apply Qcle_not_lt).
    unfold log2_fl. rewrite decide_False; [done|]. by apply Qcle_not_lt, Qcle_refl.
Qed.

Lemma log_n_caps_witness :
  ∃ exp', log_n (λ x, x) exp_sparse (PNum 1) = Ok exp'
    ∧ data exp' !! 0%nat = Some [Some (Qc_of_Z 5); Some 1].
Proof.
  destruct (log_n_caps (λ x, x) exp_sparse 1) as (exp' & Hl & _ & _ & _ & _ & Hpos & _).
  exists exp'. split; [exact Hl|].
  rewrite (Hpos ltac:(by vm_compute) 0%nat [Qc_of_Z 5; 0] eq_refl). reflexivity.
Defined.

(** ** Reordering by positions, again *)

Lemma lookup_seq_self {A} (l : list A) : (λ i, l !! i) <$> seq 0 (length l) = Some <$> l.
Proof.
  apply list_eq. intros i. rewrite !list_lookup_fmap.
  destruct (decide (i < length l)%nat) as [Hi|Hi].
  - rewrite lookup_seq_lt by done. simpl.
    by destruct (lookup_lt_is_Some_2 l i Hi) as [x ->].
  - rewrite lookup_seq_ge by lia. simpl. by rewrite (proj2 (lookup_ge_None l i)) by lia.
Qed.

Lemma take_positions_seq {A} (l : list A) : take_positions (seq 0 (length l)) l = Ok l.
Proof.
  destruct (take_positions_ok (seq 0 (length l)) l) as (l' & Hl' & Hs).
  { apply Forall_forall. intros i Hi%elem_of_seq. lia. }
  rewrite lookup_seq_self in Hs. apply (inj (fmap Some)) in Hs. by subst.
Qed.

Lemma positions_Permutation {A} (idx idx' : list A) (ps : list nat) :
  Some <$> idx' = (λ i, idx !! i) <$> ps → ps ≡ₚ seq 0 (length idx) → idx' ≡ₚ idx.
Proof.
  intros Hs Hp.
  assert (H : Some <$> idx' ≡ₚ Some <$> idx) by (by rewrite Hs, Hp, lookup_seq_self).
  apply (omap_Permutation id) in H.
  assert (Hid : ∀ l : list A, omap id (Some <$> l) = l).
  { intros l. induction l as [|x l IH]; csimpl; [done|]. by rewrite IH. }
  by rewrite !Hid in H.
Qed.

Lemma res_map_Forall {A B} (f : A → res B) (Q : B → Prop) (l : list A) (l' : list B) :
  (∀ x y, f x = Ok y → Q y) → res_map f l = Ok l' → Forall Q l'.
Proof.
  intros HQ. revert l'. induction l as [|x l IH]; intros l' H.
  - injection H as <-. constructor.
  - unfold res_map in *. csimpl in H. destruct (f x) as [y|] eqn:Ey; [|done].
    destruct (foldr _ _ l) as [rest|]; [|done]. injection H as <-.
    constructor; [by eapply HQ|by apply IH].
Qed.

(** A successful reordering by positions keeps the tables aligned and
    touches neither the other axis nor the experiment metadata. *)
Lemma reorder_positions_aligned (exp exp' : Experiment) (ps : list nat) (axis : Z) :
  aligned exp → reorder exp (Positions ps) axis = Ok exp' →
  aligned exp'
  ∧ exp_metadata exp' = exp_metadata exp
  ∧ (axis = 0%Z → feature_metadata exp' = feature_metadata exp)
  ∧ (axis = 1%Z → sample_metadata exp' = sample_metadata exp).
Proof.
  intros [Hrows Hcols] H. unfold reorder, df_select in H.
  destruct (decide (axis = 0%Z)) as [->|H0]; [|destruct (decide (axis = 1%Z)) as [->|H1]];
    [| |done]; simpl in H.
  - destruct (take_positions ps (data exp)) as [d|] eqn:Ed; [|done]. simpl in H.
    destruct (take_positions ps (df_rows (sample_metadata exp))) as [rows|] eqn:Er; [|done].
    injection H as <-. unfold aligned. simpl. split; [|done]. split.
    + by rewrite (take_positions_length _ _ _ Ed), (take_positions_length _ _ _ Er).
    + destruct (take_positions_ok ps (data exp)) as (d' & Hd' & Hs).
      { apply Forall_forall. intros i Hi.
        destruct (decide (i < length (data exp))%nat) as [|Hge]; [done|].
        exfalso. clear -Ed Hi Hge. revert d Ed.
        induction ps as [|p ps IH]; intros d Ed; [by apply elem_of_nil in Hi|].
        unfold take_positions in *. csimpl in Ed.
        destruct (foldr _ _ ps) as [rest|]; [|done]. simpl in Ed.
        apply elem_of_cons in Hi as [->|Hi].
        - rewrite (proj2 (lookup_ge_None _ _)) in Ed by lia. done.
        - by eapply IH. }
      rewrite Ed in Hd'. injection Hd' as <-.
      apply Forall_forall. intros r Hr. rewrite Forall_forall in Hcols. apply Hcols.
      apply (list_elem_of_fmap_2 Some) in Hr. rewrite Hs in Hr.
      apply list_elem_of_fmap in Hr as (i & Hi & _). symmetry in Hi.
      by eapply list_elem_of_lookup_2.
  - destruct (res_map (select (Positions ps)) (data exp)) as [d|] eqn:Ed; [|done]. simpl in H.
    destruct (take_positions ps (df_rows (feature_metadata exp))) as [rows|] eqn:Er; [|done].
    injection H as <-. unfold aligned. simpl. split; [|done]. split.
    + by rewrite (res_map_length _ _ _ Ed).
    + rewrite (take_positions_length _ _ _ Er).
      eapply res_map_Forall; [|exact Ed]. intros r r' Hr. simpl in Hr.
      by eapply take_positions_length.
Qed.

Lemma reorder_identity (exp : Experiment) (axis : Z) :
  axis = 0%Z ∨ axis = 1%Z → aligned exp →
  reorder exp (Positions (seq 0 (length (axis_index exp axis)))) axis = Ok exp.
Proof.
  intros Hax [Hrows Hcols]. unfold reorder, axis_index, df_select, df_index.
  destruct exp as [d [sc sr] [fc fr] em sp]. simpl in *.
  destruct Hax as [-> | ->]; simpl; rewrite length_fmap.
  - assert (take_positions (seq 0 (length sr)) d = Ok d) as ->
      by (rewrite <- Hrows; apply take_positions_seq).
    simpl. by rewrite take_positions_seq.
  - rewrite take_positions_seq.
    rewrite (res_map_ok _ id).
    + simpl. by rewrite list_fmap_id.
    + eapply Forall_impl; [exact Hcols|]. intros r Hr. simpl in *.
      rewrite <- Hr. apply take_positions_seq.
Qed.

(** ** sort_ids, again *)

Lemma sort_ids_positions_bound (index ids : list string) :
  Forall (λ i, (i < length index)%nat)
         (sort_ids_okpos index ids
          ++ setdiff1d (seq 0 (length index)) (sort_ids_okpos index ids)).
Proof.
  apply Forall_app. split; [apply sort_ids_okpos_bound|].
  apply Forall_forall. intros i [_ Hi%elem_of_seq]%list_elem_of_filter. lia.
Qed.

Lemma sort_ids_result (exp : Experiment) (ids : list string) (axis : Z) :
  axis = 0%Z ∨ axis = 1%Z → aligned exp → unique_ids exp →
  ∃ exp', sort_ids exp ids axis = Ok exp'
    ∧ axis_index exp' axis
      = filter (λ cid, cid ∈ axis_index exp axis) ids
        ++ filter (λ x, x ∉ ids) (axis_index exp axis)
    ∧ aligned exp'
    ∧ exp_metadata exp' = exp_metadata exp
    ∧ (axis = 0%Z → feature_metadata exp' = feature_metadata exp)
    ∧ (axis = 1%Z → sample_metadata exp' = sample_metadata exp).
Proof.
  intros Hax Hal [Hnd0 Hnd1].
  assert (Hnd : NoDup (axis_index exp axis)).
  { unfold axis_index. by destruct (decide _). }
  assert (Hidx : (if decide (axis = 0%Z) then df_index (sample_metadata exp)
                  else df_index (feature_metadata exp)) = axis_index exp axis) by done.
  unfold sort_ids. rewrite Hidx.
  destruct (reorder_positions_index exp _ axis Hax Hal
              (sort_ids_positions_bound (axis_index exp axis) ids)) as (exp' & Hr & Hi).
  exists exp'. split; [done|]. split.
  - apply (inj (fmap Some)). rewrite Hi, !fmap_app.
    by rewrite sort_ids_okpos_lookup, sort_ids_otherpos_lookup.
  - by eapply reorder_positions_aligned.
Qed.

Lemma sort_ids_index_Permutation (index ids : list string) :
  NoDup index → NoDup ids →
  filter (λ cid, cid ∈ index) ids ++ filter (λ x, x ∉ ids) index ≡ₚ index.
Proof.
  intros Hnd Hids. etrans; [|apply (filter_app_complement (λ x, x ∈ ids) index)].
  apply Permutation_app; [|done].
  apply NoDup_Permutation; [by apply NoDup_filter..|].
  intros x. rewrite !list_elem_of_filter. tauto.
Qed.

Lemma sort_ids_result_nodup (exp : Experiment) (ids : list string) (axis : Z) :
  axis = 0%Z ∨ axis = 1%Z → aligned exp → unique_ids exp → NoDup ids →
  ∃ exp', sort_ids exp ids axis = Ok exp'
    ∧ axis_index exp' axis ≡ₚ axis_index exp axis
    ∧ aligned exp' ∧ unique_ids exp'
    ∧ exp_metadata exp' = exp_metadata exp
    ∧ (axis = 0%Z → feature_metadata exp' = feature_metadata exp)
    ∧ (axis = 1%Z → sample_metadata exp' = sample_metadata exp).
Proof.
  intros Hax Hal Hu Hids.
  destruct (sort_ids_result exp ids axis Hax Hal Hu) as (exp' & Hs & Hi & Hal' & Hm & H0 & H1).
  assert (Hnd : NoDup (axis_index exp axis)).
  { destruct Hu. unfold axis_index. by destruct (decide _). }
  assert (Hp : axis_index exp' axis ≡ₚ axis_index exp axis).
  { rewrite Hi. by apply sort_ids_index_Permutation. }
  exists exp'. do 3 (split; [done|]). split; [|done].
  destruct Hu as [Hu0 Hu1]. unfold unique_ids, axis_index in *.
  destruct Hax as [-> | ->]; simpl in *.
  - rewrite (H0 eq_refl). split; [by rewrite Hp|done].
  - rewrite (H1 eq_refl). split; [done|by rewrite Hp].
Qed.

(** X10.  With identifiers listed once each, [sort_ids] only permutes:
    the result has the identifiers of the experiment, each once, its
    tables are aligned, and the other axis and the experiment metadata are
    untouched. *)
Theorem sort_ids_permutes (exp : Experiment) (ids : list string) (axis : Z) :
  axis = 0%Z ∨ axis = 1%Z → aligned exp → unique_ids exp → NoDup ids →
  ∃ exp', sort_ids exp ids axis = Ok exp'
    ∧ axis_index exp' axis ≡ₚ axis_index exp axis
    ∧ aligned exp' ∧ unique_ids exp'
    ∧ exp_metadata exp' = exp_metadata exp
    ∧ (axis = 0%Z → feature_metadata exp' = feature_metadata exp)
    ∧ (axis = 1%Z → sample_metadata exp' = sample_metadata exp).
Proof. apply sort_ids_result_nodup. Qed.

Lemma sort_ids_permutes_witness :
  ∃ exp', sort_ids exp_five ["F3"; "F1"] 1 = Ok exp'
    ∧ df_index (feature_metadata exp') ≡ₚ ["F1"; "F2"; "F3"; "F4"; "F5"]
    ∧ sample_metadata exp' = one_sample.
Proof.
  destruct (sort_ids_permutes exp_five ["F3"; "F1"] 1) as (exp' & Hs & Hp & _ & _ & _ & _ & H1).
  - by right.
  - split; [reflexivity|]. by repeat constructor.
  - split; cbn; apply (bool_decide_unpack _); by vm_compute.
  - apply (bool_decide_unpack _). by vm_compute.
  - exists exp'. split; [exact Hs|]. split; [exact Hp|by apply H1].
Defined.

Lemma sort_ids_okpos_unknown (index ids : list string) :
  Forall (λ cid, cid ∉ index) ids → sort_ids_okpos index ids = [].
Proof.
  induction 1 as [|cid ids Hc _ IH]; [done|]. simpl.
  by rewrite (proj2 (get_loc_None index cid) Hc).
Qed.

(** X11.  Identifiers that the experiment does not have are ignored: if
    none of [ids] is known, [sort_ids] returns the experiment as it is. *)
Theorem sort_ids_unknown_ids (exp : Experiment) (ids : list string) (axis : Z) :
  axis = 0%Z ∨ axis = 1%Z → aligned exp →
  Forall (λ cid, cid ∉ axis_index exp axis) ids →
  sort_ids exp ids axis = Ok exp.
Proof.
  intros Hax Hal Hids.
  assert (Hidx : (if decide (axis = 0%Z) then df_index (sample_metadata exp)
                  else df_index (feature_metadata exp)) = axis_index exp axis) by done.
  unfold sort_ids. rewrite Hidx, sort_ids_okpos_unknown by done. simpl.
  unfold setdiff1d. rewrite filter_all.
  - by apply reorder_identity.
  - apply Forall_forall. intros i _. by intros ?%elem_of_nil.
Qed.

Lemma sort_ids_unknown_ids_witness : sort_ids exp_five ["pita"] 1 = Ok exp_five.
Proof.
  apply sort_ids_unknown_ids.
  - by right.
  - split; [reflexivity|]. by repeat constructor.
  - repeat constructor. cbn. apply (bool_decide_unpack _). by vm_compute.
Defined.

Lemma positions_identity (index : list string) (ps : list nat) :
  NoDup index → Forall (λ i, (i < length index)%nat) ps →
  (λ i, index !! i) <$> ps = Some <$> index → ps = seq 0 (length index).
Proof.
  intros Hnd Hps Hs. apply list_eq. intros k.
  assert (Hk := f_equal (λ l, l !! k) Hs). simpl in Hk. rewrite !list_lookup_fmap in Hk.
  destruct (ps !! k) as [p|] eqn:Ep; simpl in Hk.
  - destruct (index !! k) as [x|] eqn:Ex; simpl in Hk; [|done]. injection Hk as Hk.
    rewrite lookup_seq_lt by (by eapply lookup_lt_Some). f_equal.
    by eapply NoDup_lookup.
  - destruct (index !! k) as [x|] eqn:Ex; simpl in Hk; [done|].
    symmetry. apply lookup_ge_None. rewrite length_seq. by apply lookup_ge_None.
Qed.

(** X12.  Sorting by the same identifiers again changes nothing: for
    identifiers listed once each, [sort_ids] of the result of [sort_ids]
    is that result. *)
Theorem sort_ids_idempotent (exp exp1 : Experiment) (ids : list string) (axis : Z) :
  axis = 0%Z ∨ axis = 1%Z → aligned exp → unique_ids exp → NoDup ids →
  sort_ids exp ids axis = Ok exp1 →
  sort_ids exp1 ids axis = Ok exp1.
Proof.
  intros Hax Hal Hu Hids Hs.
  destruct (sort_ids_result_nodup exp ids axis Hax Hal Hu Hids)
    as (exp1' & Hs' & Hp & Hal1 & Hu1 & _).
  rewrite Hs in Hs'. injection Hs' as <-.
  destruct (sort_ids_result exp ids axis Hax Hal Hu) as (exp1' & Hs' & Hi & _).
  rewrite Hs in Hs'. injection Hs' as <-.
  assert (Hnd1 : NoDup (axis_index exp1 axis)).
  { destruct Hu1. unfold axis_index. by destruct (decide _). }
  set (idx := axis_index exp axis) in *. set (idx1 := axis_index exp1 axis) in *.
  assert (Hidx : (if decide (axis = 0%Z) then df_index (sample_metadata exp1)
                  else df_index (feature_metadata exp1)) = idx1) by done.
  unfold sort_ids. rewrite Hidx.
  rewrite (positions_identity idx1 _ Hnd1 (sort_ids_positions_bound idx1 ids)).
  { by apply reorder_identity. }
  rewrite fmap_app, sort_ids_okpos_lookup, sort_ids_otherpos_lookup by done.
  rewrite <- fmap_app. f_equal. etrans; [|symmetry; exact Hi].
  f_equal.
  - apply list_filter_iff. intros x. by rewrite Hp.
  - replace (filter (λ x, x ∉ ids) idx1)
      with (filter (λ x, x ∉ ids)
                   (filter (λ cid, cid ∈ idx) ids ++ filter (λ x, x ∉ ids) idx))
      by (by rewrite <- Hi).
    rewrite filter_app. rewrite (filter_none (λ x, x ∉ ids)).
    + simpl. rewrite filter_all; [done|].
      apply Forall_forall. by intros x [? _]%list_elem_of_filter.
    + apply Forall_forall. intros x [_ Hx]%list_elem_of_filter. tauto.
Qed.

Lemma sort_ids_idempotent_witness :
  ∃ exp1, sort_ids exp_five ["F3"; "F1"] 1 = Ok exp1
    ∧ sort_ids exp1 ["F3"; "F1"] 1 = Ok exp1.
Proof.
  destruct (sort_ids_result exp_five ["F3"; "F1"] 1) as (exp1 & Hs & _).
  { by right. }
  { split; [reflexivity|]. by repeat constructor. }
  { split; cbn; apply (bool_decide_unpack _); by vm_compute. }
  exists exp1. split; [exact Hs|].
  apply (sort_ids_idempotent exp_five exp1 ["F3"; "F1"] 1); [by right| | | |exact Hs].
  - split; [reflexivity|]. by repeat constructor.
  - split; cbn; apply (bool_decide_unpack _); by vm_compute.
  - apply (bool_decide_unpack _). by vm_compute.
Defined.

(** ** Reversed orders *)

Lemma take_positions_bound {A} (ps : list nat) (l l' : list A) :
  take_positions ps l = Ok l' → Forall (λ i, (i < length l)%nat) ps.
Proof.
  revert l'. induction ps as [|p ps IH]; intros l' H; [constructor|].
  unfold take_positions in *. csimpl in H.
  destruct (foldr _ _ ps) as [rest|]; [|done]. simpl in H.
  destruct (l !! p) as [x|] eqn:Ex; [|done].
  constructor; [by eapply lookup_lt_Some|by eapply IH].
Qed.

Lemma take_positions_reverse {A} (ps : list nat) (l l' : list A) :
  take_positions ps l = Ok l' → take_positions (reverse ps) l = Ok (reverse l').
Proof.
  intros H. pose proof (take_positions_bound _ _ _ H) as Hb.
  destruct (take_positions_ok ps l Hb) as (l1 & H1 & Hs1).
  rewrite H in H1. injection H1 as <-.
  destruct (take_positions_ok (reverse ps) l) as (l2 & H2 & Hs2).
  { rewrite Forall_forall in Hb |- *. intros i Hi. apply Hb. by apply elem_of_reverse. }
  rewrite H2. f_equal. apply (inj (fmap Some)).
  by rewrite Hs2, !fmap_reverse, Hs1.
Qed.

Lemma res_map_pointwise {A B} (f g : A → res B) (h : B → B) (l : list A) (l' : list B) :
  (∀ x y, f x = Ok y → g x = Ok (h y)) →
  res_map f l = Ok l' → res_map g l = Ok (h <$> l').
Proof.
  intros Hfg. revert l'. induction l as [|x l IH]; intros l' H.
  - by injection H as <-.
  - unfold res_map in *. csimpl in *. destruct (f x) as [y|] eqn:Ey; [|done].
    destruct (foldr _ _ l) as [rest|] eqn:Er; [|done]. injection H as <-.
    rewrite (Hfg _ _ Ey), (IH rest eq_refl). done.
Qed.

(** Reordering by the reversed positions gives the reversed result. *)
Lemma reorder_reverse (exp e1 : Experiment) (ps : list nat) (axis : Z) :
  reorder exp (Positions ps) axis = Ok e1 →
  ∃ e2, reorder exp (Positions (reverse ps)) axis = Ok e2
    ∧ axis_index e2 axis = reverse (axis_index e1 axis)
    ∧ (axis = 0%Z → data e2 = reverse (data e1))
    ∧ (axis = 1%Z → data e2 = reverse <$> data e1).
Proof.
  intros H. unfold reorder, df_select, axis_index, df_index in *.
  destruct (decide (axis = 0%Z)) as [->|H0]; [|destruct (decide (axis = 1%Z)) as [->|H1]];
    [| |done]; simpl in *.
  - destruct (take_positions ps (data exp)) as [d|] eqn:Ed; [|done]. simpl in H.
    destruct (take_positions ps (df_rows (sample_metadata exp))) as [rows|] eqn:Er; [|done].
    injection H as <-. simpl.
    rewrite (take_positions_reverse _ _ _ Ed), (take_positions_reverse _ _ _ Er). simpl.
    eexists. split; [reflexivity|]. simpl. by rewrite fmap_reverse.
  - destruct (res_map (select (Positions ps)) (data exp)) as [d|] eqn:Ed; [|done]. simpl in H.
    destruct (take_positions ps (df_rows (feature_metadata exp))) as [rows|] eqn:Er; [|done].
    injection H as <-. simpl.
    change (res_map (select (Positions (reverse ps))) (data exp))
      with (res_map (take_positions (reverse ps)) (data exp)).
    rewrite (res_map_pointwise (take_positions ps) _ reverse _ d).
    + rewrite (take_positions_reverse _ _ _ Er). simpl.
      eexists. split; [reflexivity|]. simpl. by rewrite fmap_reverse.
    + intros r r'. apply take_positions_reverse.
    + exact Ed.
Qed.

(** ** sort_by_data, again *)

(** X13.  Whatever [np.argsort] and the key are: where [sort_by_data]
    returns, it also returns with [reverse=True], and that result is the
    first one with the sorted axis in the opposite order (the identifiers,
    and with them the rows, respectively the entries of each row). *)
Theorem sort_by_data_reverse (np_log2 : Qc → Qc) (argsort : list fl → list nat)
    (exp e1 : Experiment) (axis : Z) (subset : option (list nat)) (key : sort_key) :
  sort_by_data np_log2 argsort exp axis subset key false = Ok e1 →
  ∃ e2, sort_by_data np_log2 argsort exp axis subset key true = Ok e2
    ∧ axis_index e2 axis = reverse (axis_index e1 axis)
    ∧ (axis = 0%Z → data e2 = reverse (data e1))
    ∧ (axis = 1%Z → data e2 = reverse <$> data e1).
Proof.
  unfold sort_by_data. intros H.
  destruct (data_subset exp axis subset) as [m|]; [|done]. simpl in *.
  destruct (match key with KeyStr name => func np_log2 name | KeyFun f => Ok f end) as [k|];
    [|done]. simpl in *.
  destruct (key_vectors exp axis m) as [vectors|]; [|done]. simpl in *.
  destruct (if sparse exp then _ else _) as [values|]; [|done]. simpl in *.
  by apply reorder_reverse.
Qed.

Lemma sort_by_data_reverse_witness :
  ∃ e1 e2,
    sort_by_data (λ x, x) argsort_stable exp_groups 0 None key_mean false = Ok e1
    ∧ sort_by_data (λ x, x) argsort_stable exp_groups 0 None key_mean true = Ok e2
    ∧ df_index (sample_metadata e2) = reverse (df_index (sample_metadata e1)).
Proof.
  assert (H1 : ∃ e1, sort_by_data (λ x, x) argsort_stable exp_groups 0 None key_mean false
                     = Ok e1) by (by vm_compute; eexists).
  destruct H1 as [e1 H1].
  destruct (sort_by_data_reverse _ _ _ _ _ _ _ H1) as (e2 & H2 & Hi & _).
  by exists e1, e2.
Defined.

(** ** sort_by_metadata, sort_samples *)

(** X14.  [sort_by_metadata] raises [ValueError] for an axis other than 0
    and 1, whatever the field, and [KeyError] for a field that the
    metadata table of the axis does not have. *)
Theorem sort_by_metadata_errors (_argsort : list cell → list nat) (exp : Experiment)
    (field : string) (axis : Z) :
  (axis ≠ 0%Z → axis ≠ 1%Z → sort_by_metadata _argsort exp field axis = Raise ValueError)
  ∧ (axis = 0%Z ∨ axis = 1%Z → field ∉ df_columns (axis_metadata exp axis) →
       sort_by_metadata _argsort exp field axis = Raise KeyError).
Proof.
  unfold sort_by_metadata, axis_metadata. split.
  - intros H0 H1. by rewrite !decide_False.
  - intros Hax Hf.
    assert (Hc : ∀ df, field ∉ df_columns df → df_column df field = Raise KeyError).
    { intros df Hn. unfold df_column, df_column_pos.
      destruct (list_find _ _) as [[j c]|] eqn:E; [|done].
      apply list_find_Some in E as (Hj & -> & _). exfalso. apply Hn.
      by eapply list_elem_of_lookup_2. }
    destruct Hax as [-> | ->]; simpl in *; by rewrite Hc.
Qed.

Lemma sort_by_metadata_errors_witness :
  sort_by_metadata (λ _, []) exp_groups "group" 2 = Raise ValueError
  ∧ sort_by_metadata (λ _, []) exp_groups "nosuchfield" 0 = Raise KeyError.
Proof.
  split.
  - by apply (proj1 (sort_by_metadata_errors (λ _, []) exp_groups "group" 2)).
  - apply (proj2 (sort_by_metadata_errors (λ _, []) exp_groups "nosuchfield" 0)); [by left|].
    cbn. apply (bool_decide_unpack _). by vm_compute.
Defined.

(** X15.  When [_argsort] returns each position of the column once,
    [sort_by_metadata] returns an experiment with the same identifiers in
    the order of these positions; the tables stay aligned and their
    identifiers unique, and the other axis and the experiment metadata are
    untouched.  [sort_samples] is the same on the samples. *)
Theorem sort_by_metadata_permutes (_argsort : list cell → list nat) (exp : Experiment)
    (field : string) (axis : Z) (values : list cell) :
  axis = 0%Z ∨ axis = 1%Z → aligned exp → unique_ids exp →
  df_column (axis_metadata exp axis) field = Ok values →
  _argsort values ≡ₚ seq 0 (length values) →
  ∃ exp', sort_by_metadata _argsort exp field axis = Ok exp'
    ∧ (axis = 0%Z → sort_samples _argsort exp field None = Ok exp')
    ∧ Some <$> axis_index exp' axis = (λ i, axis_index exp axis !! i) <$> _argsort values
    ∧ axis_index exp' axis ≡ₚ axis_index exp axis
    ∧ aligned exp' ∧ unique_ids exp'
    ∧ exp_metadata exp' = exp_metadata exp
    ∧ (axis = 0%Z → feature_metadata exp' = feature_metadata exp)
    ∧ (axis = 1%Z → sample_metadata exp' = sample_metadata exp).
Proof.
  intros Hax Hal Hu Hcol Hperm.
  assert (Hlen : length values = length (axis_index exp axis)).
  { unfold df_column in Hcol. destruct (df_column_pos _ _); [|done]. injection Hcol as <-.
    unfold axis_index, axis_metadata, df_index. destruct (decide _); by rewrite !length_fmap. }
  rewrite Hlen in Hperm.
  destruct (reorder_positions_index exp (_argsort values) axis Hax Hal) as (exp' & Hr & Hi).
  { apply Forall_forall. intros i Hi. rewrite Hperm in Hi. apply elem_of_seq in Hi. lia. }
  destruct (reorder_positions_aligned _ _ _ _ Hal Hr) as (Hal' & Hm & H0 & H1).
  pose proof (positions_Permutation _ _ _ Hi Hperm) as Hp.
  assert (Hs : sort_by_metadata _argsort exp field axis = Ok exp').
  { unfold sort_by_metadata, axis_metadata in *.
    destruct Hax as [-> | ->]; simpl in *; by rewrite Hcol. }
  exists exp'. split; [done|]. split; [by intros ->|].
  do 3 (split; [done|]). split; [|done].
  destruct Hu as [Hu0 Hu1]. unfold unique_ids, axis_index in *.
  destruct Hax as [-> | ->]; simpl in *.
  - rewrite (H0 eq_refl). split; [by rewrite Hp|done].
  - rewrite (H1 eq_refl). split; [done|by rewrite Hp].
Qed.

Lemma sort_by_metadata_permutes_witness :
  ∃ exp', sort_samples (λ _, [0; 2; 1]%nat) exp_groups "group" None = Ok exp'
    ∧ df_index (sample_metadata exp') = ["S1"; "S3"; "S2"].
Proof.
  destruct (sort_by_metadata_permutes (λ _, [0; 2; 1]%nat) exp_groups "group" 0
              [Str "1"; Str "2"; Str "1"])
    as (exp' & _ & Hs & Hi & _).
  - by left.
  - split; [reflexivity|]. by repeat constructor.
  - split; cbn; apply (bool_decide_unpack _); by vm_compute.
  - reflexivity.
  - apply (bool_decide_unpack _). by vm_compute.
  - exists exp'. split; [by apply Hs|]. apply (inj (fmap Some)). exact Hi.
Defined.

(** ** save_fasta, again *)

(** X16.  Without [seqs], [save_fasta] writes one record per feature, in
    the order of the features and numbered from 0, and skips nothing. *)
Theorem save_fasta_all (exp : Experiment) :
  let fmd := feature_metadata exp in
  save_fasta exp None
  = (concat_str ((λ p : nat * string,
                    fasta_record (fasta_header p.1 (annotation fmd p.2)) p.2)
                 <$> enumerate (df_index fmd)),
     0%nat).
Proof.
  intros fmd. unfold save_fasta. fold fmd. rewrite save_fasta_loop_spec.
  assert (Hall : filter (λ p : nat * string, p.2 ∈ df_index fmd)
                        (zip (seq 0 (length (df_index fmd))) (df_index fmd))
                 = enumerate (df_index fmd)).
  { apply filter_all, Forall_forall. intros [i s] Hin.
    apply list_elem_of_lookup_1 in Hin as [k Hk].
    apply lookup_zip_with_Some in Hk as (a & b & [= <- <-] & _ & Hb).
    simpl. by eapply list_elem_of_lookup_2. }
  rewrite Hall. f_equal. unfold enumerate. rewrite length_zip_with, length_seq. lia.
Qed.

(** ** read, again *)

Section ReadingFurther.
Variable _read_biom : string → loaded.
Variable _read_qiime2 : string → loaded.
Variable _read_open_ms : string → bool → loaded.
Variable _read_table : string → DataFrame.
Variable get_file_md5 : string → string.
Variable get_data_md5 : list (list Qc) → string.

Local Abbreviation read_ := (read _read_biom _read_qiime2 _read_open_ms _read_table
                                  get_file_md5 get_data_md5).
Local Abbreviation load_ := (load_data _read_biom _read_qiime2 _read_open_ms).

(** X17.  [read] without a sample metadata file: [drop] makes no
    difference, neither to the result nor to what is logged, and an
    experiment that is returned has the sample ids of the data as
    identifiers and as its [id] column. *)
Theorem read_without_sample_metadata (data_file : string) (fmf : option string)
    (drop sparse_flag : bool) (data_file_type : string) (normalize_total : option pyval)
    (ld : loaded) :
  load_ data_file data_file_type = Ok ld →
  length (ld_data ld) = length (ld_sid ld) →
  read_ data_file None fmf drop sparse_flag data_file_type normalize_total
  = read_ data_file None fmf false sparse_flag data_file_type normalize_total
  ∧ ∀ exp, (read_ data_file None fmf drop sparse_flag data_file_type normalize_total).2 = Ok exp →
      df_index (sample_metadata exp) = ld_sid ld
      ∧ df_column (sample_metadata exp) "id" = Ok (Str <$> ld_sid ld).
Proof.
  intros Hld Hlen.
  assert (Hread : ∀ drop',
            ∃ w2 (fmr : res DataFrame) em,
              read_ data_file None fmf drop' sparse_flag data_file_type normalize_total
              = (w2, fm ← fmr;
                     let exp0 := mkExp (ld_data ld) (df_of_ids (ld_sid ld)) fm em sparse_flag in
                     match normalize_total with
                     | Some total => normalize exp0 total 0
                     | None => Ok exp0
                     end)
              ∧ ∀ drop'',
                  read_ data_file None fmf drop'' sparse_flag data_file_type normalize_total
                  = read_ data_file None fmf drop' sparse_flag data_file_type normalize_total).
  { intros drop'. unfold read. rewrite Hld.
    destruct (match fmf with Some f0 => _ | None => _ end) as [w2 fmr].
    destruct fmr as [fm|e]; simpl.
    - match goal with
      | |- context [reorder ?e _ 0] => set (exp := e)
      end.
      assert (Hre : ∀ d : bool,
                (if d then reorder exp (Mask (replicate (length (ld_sid ld)) true)) 0
                 else Ok exp) = Ok exp).
      { intros [|]; [|done]. apply reorder_all_true; [symmetry; exact Hlen|].
        unfold exp, df_of_ids. simpl. by rewrite length_fmap. }
      eexists w2, (Ok _), _. simpl. rewrite Hre. split; [reflexivity|].
      intros drop''. by rewrite Hre.
    - eexists w2, (Raise e), ∅. simpl. split; [reflexivity|]. done. }
  destruct (Hread false) as (w2 & fmr & em & Hfalse & Hany).
  split; [apply Hany|]. rewrite (Hany drop), Hfalse. simpl.
  intros exp He. destruct fmr as [fm|e]; simpl in He; [|done].
  assert (Hsm : sample_metadata exp = df_of_ids (ld_sid ld)).
  { destruct normalize_total as [total|].
    - destruct (normalize_frame _ _ _ _ He) as [(Hs & _ & _)|]; done.
    - by injection He as <-. }
  rewrite Hsm. unfold df_of_ids, df_index, df_column. simpl. rewrite <- !list_fmap_compose.
  split; [apply list_fmap_id|done].
Qed.
End ReadingFurther.

Lemma read_without_sample_metadata_witness :
  ∃ exp,
    (read (λ _, loaded_three) (λ _, loaded_three) (λ _ _, loaded_three) (λ _, metadata_four)
          (λ _, "") (λ _, "") "table.biom" None None true true "biom" None).2 = Ok exp
    ∧ df_index (sample_metadata exp) = ["S1"; "S2"; "S3"].
Proof.
  eexists. split; [reflexivity|].
  eapply (read_without_sample_metadata
            (λ _, loaded_three) (λ _, loaded_three) (λ _ _, loaded_three)
            (λ _, metadata_four) (λ _, "") (λ _, "")
            "table.biom" None true true "biom" None loaded_three);
    reflexivity.
Defined.

(** *** The order of the rows of a metadata file *)

Lemma filter_label_Permutation (rows1 rows2 : list (string * list cell)) (l : string) :
  NoDup rows1.*1 → rows1 ≡ₚ rows2 →
  filter (λ r : string * list cell, r.1 = l) rows1 = filter (λ r, r.1 = l) rows2.
Proof.
  intros Hnd Hp.
  assert (Hnd2 : NoDup rows2.*1) by (by rewrite <- Hp).
  assert (Hf : filter (λ r : string * list cell, r.1 = l) rows1
               ≡ₚ filter (λ r, r.1 = l) rows2) by (by rewrite Hp).
  destruct (filter_label_unique rows1 l Hnd) as [E1|(c1 & E1)],
           (filter_label_unique rows2 l Hnd2) as [E2|(c2 & E2)];
    rewrite E1, E2 in *; try done.
  - by apply Permutation_nil_cons in Hf.
  - symmetry in Hf. by apply Permutation_nil_cons in Hf.
  - by apply Permutation_singleton_inj in Hf as ->.
Qed.

Lemma df_loc_Permutation (df1 df2 : DataFrame) (labels : list string) :
  df_columns df1 = df_columns df2 → NoDup (df_index df1) → df_rows df1 ≡ₚ df_rows df2 →
  df_loc df1 labels = df_loc df2 labels.
Proof.
  intros Hc Hnd Hp. unfold df_loc.
  assert (Hi : ∀ l, l ∈ df_index df1 ↔ l ∈ df_index df2).
  { intros l. unfold df_index. by rewrite Hp. }
  assert (Hrows : (labels ≫= λ l, filter (λ r : string * list cell, r.1 = l) (df_rows df1))
                  = (labels ≫= λ l, filter (λ r : string * list cell, r.1 = l) (df_rows df2))).
  { induction labels as [|l labels IH]; [done|]. csimpl. rewrite IH. f_equal.
    by rewrite (filter_label_Permutation _ _ l Hnd Hp). }
  rewrite Hc, Hrows.
  destruct (decide (Forall (λ l, l ∈ df_index df1) labels)) as [H1|H1].
  - rewrite decide_True; [done|]. eapply Forall_impl; [exact H1|]. intros l. apply Hi.
  - rewrite decide_False; [done|]. intros H2. apply H1.
    eapply Forall_impl; [exact H2|]. intros l. apply Hi.
Qed.

Lemma align_metadata_Permutation (axis : Z) (df1 df2 : DataFrame) (ids : list string) :
  df_columns df1 = df_columns df2 → NoDup (df_index df1) → df_rows df1 ≡ₚ df_rows df2 →
  align_metadata axis df1 ids = align_metadata axis df2 ids.
Proof.
  intros Hc Hnd Hp. unfold align_metadata.
  assert (Hs : (list_to_set (df_index df1) : gset string) = list_to_set (df_index df2)).
  { apply set_eq. intros x. rewrite !elem_of_list_to_set. unfold df_index. by rewrite Hp. }
  by rewrite Hs, (df_loc_Permutation df1 df2 ids).
Qed.

(** *** The hash of the metadata file *)

Lemma reorder_set_exp_metadata (exp : Experiment) (o : order) (axis : Z) (k : string)
    (v : pyval) :
  reorder (set_exp_metadata exp k v) o axis
  = (e ← reorder exp o axis; Ok (set_exp_metadata e k v)).
Proof.
  unfold reorder. simpl. destruct (decide (axis = 0%Z)).
  - destruct (select o (data exp)); simpl; [|done].
    by destruct (df_select o (sample_metadata exp)).
  - destruct (decide (axis = 1%Z)); [|done].
    destruct (res_map (select o) (data exp)); simpl; [|done].
    by destruct (df_select o (feature_metadata exp)).
Qed.

Lemma normalize_set_exp_metadata (exp : Experiment) (total : pyval) (axis : Z) (k : string)
    (v : pyval) :
  k ≠ "normalized" →
  normalize (set_exp_metadata exp k v) total axis
  = (e ← normalize exp total axis; Ok (set_exp_metadata e k v)).
Proof.
  intros Hk. unfold normalize. simpl. destruct (isinstance_bool total); [done|].
  destruct (le_zero total) as [[|]|]; simpl; try done.
  destruct (as_num total) as [t|]; simpl; [|done].
  destruct (sk_normalize_l1 (data exp) (1 - axis)) as [d|]; simpl; [|done].
  unfold set_exp_metadata, set_data. simpl. f_equal. f_equal. by apply insert_insert_ne.
Qed.

Section ReadingRowOrder.
Variable _read_biom : string → loaded.
Variable _read_qiime2 : string → loaded.
Variable _read_open_ms : string → bool → loaded.
Variable get_data_md5 : list (list Qc) → string.

(** The hash function only decides what is stored under [map_md5]. *)
Lemma read_file_md5 (table : string → DataFrame) (md5_1 md5_2 : string → string)
    (data_file f : string) (fmf : option string)
    (drop sparse_flag : bool) (data_file_type : string) (normalize_total : option pyval) :
  let out1 := read _read_biom _read_qiime2 _read_open_ms table md5_1 get_data_md5
                   data_file (Some f) fmf drop sparse_flag data_file_type normalize_total in
  read _read_biom _read_qiime2 _read_open_ms table md5_2 get_data_md5
       data_file (Some f) fmf drop sparse_flag data_file_type normalize_total
  = (out1.1, e ← out1.2; Ok (set_exp_metadata e "map_md5" (PStr (md5_2 f)))).
Proof.
  unfold read. destruct (load_data _ _ _ data_file data_file_type) as [ld|]; [|done].
  destruct (align_metadata 0 (table f) (ld_sid ld)) as [[w1 sfilter] [smd|e]]; [|done].
  destruct (match fmf with Some f0 => _ | None => _ end) as [w2 [fm|e]]; [|done].
  cbv zeta. simpl. f_equal.
  set (fmd := match ld_md ld with
              | Some md =>
                  if decide (data_file_type = "biom") then df_concat_columns fm md else fm
              | None => fm
              end).
  set (m1 := <["data_md5" := PStr (get_data_md5 (ld_data ld))]>
               (<["feature_metadata_file" := opt_str fmf]>
                  (<["sample_metadata_file" := PStr f]>
                     (<["data_file" := PStr data_file]>
                        (<["map_md5" := PStr (md5_1 f)]>
                           ({["map_md5" := PStr ""]} : gmap string pyval)))))).
  set (m2 := <["data_md5" := PStr (get_data_md5 (ld_data ld))]>
               (<["feature_metadata_file" := opt_str fmf]>
                  (<["sample_metadata_file" := PStr f]>
                     (<["data_file" := PStr data_file]>
                        (<["map_md5" := PStr (md5_2 f)]>
                           ({["map_md5" := PStr ""]} : gmap string pyval)))))).
  set (exp1 := mkExp (ld_data ld) smd fmd m1 sparse_flag).
  assert (Hexp : mkExp (ld_data ld) smd fmd m2 sparse_flag
                 = set_exp_metadata exp1 "map_md5" (PStr (md5_2 f))).
  { unfold set_exp_metadata, exp1, m1, m2. simpl. by f_equal. }
  rewrite Hexp.
  assert (Hre : (if drop then reorder (set_exp_metadata exp1 "map_md5" (PStr (md5_2 f)))
                                      (Mask sfilter) 0
                 else Ok (set_exp_metadata exp1 "map_md5" (PStr (md5_2 f))))
                = (e ← (if drop then reorder exp1 (Mask sfilter) 0 else Ok exp1);
                   Ok (set_exp_metadata e "map_md5" (PStr (md5_2 f))))).
  { destruct drop; [apply reorder_set_exp_metadata|done]. }
  rewrite Hre.
  destruct (if drop then reorder exp1 (Mask sfilter) 0 else Ok exp1) as [e1|]; simpl; [|done].
  destruct normalize_total as [total|]; [|done].
  by apply normalize_set_exp_metadata.
Qed.

(** X18.  The order of the rows of the sample metadata file matters only
    for the hash of the file: of two tables with the same columns and the
    same rows in different orders, with unique identifiers, the second
    gives the warnings of the first and the result of the first, an
    experiment or an exception, with the hash of the second file under
    [map_md5]. *)
Theorem read_metadata_row_order (table1 table2 : string → DataFrame)
    (md5_1 md5_2 : string → string) (data_file f : string) (fmf : option string)
    (drop sparse_flag : bool) (data_file_type : string) (normalize_total : option pyval) :
  df_columns (table1 f) = df_columns (table2 f) →
  NoDup (df_index (table1 f)) →
  df_rows (table1 f) ≡ₚ df_rows (table2 f) →
  (∀ g, fmf = Some g → table1 g = table2 g) →
  let out1 := read _read_biom _read_qiime2 _read_open_ms table1 md5_1 get_data_md5
                   data_file (Some f) fmf drop sparse_flag data_file_type normalize_total in
  read _read_biom _read_qiime2 _read_open_ms table2 md5_2 get_data_md5
       data_file (Some f) fmf drop sparse_flag data_file_type normalize_total
  = (out1.1, e ← out1.2; Ok (set_exp_metadata e "map_md5" (PStr (md5_2 f)))).
Proof.
  intros Hc Hnd Hp Hf out1.
  rewrite (read_file_md5 table2 md5_1 md5_2).
  assert (Hsame : read _read_biom _read_qiime2 _read_open_ms table2 md5_1 get_data_md5
                       data_file (Some f) fmf drop sparse_flag data_file_type normalize_total
                  = out1).
  { unfold out1, read.
    destruct (load_data _ _ _ data_file data_file_type) as [ld|]; [|done].
    rewrite (align_metadata_Permutation 0 (table1 f) (table2 f)) by done.
    destruct fmf as [g|]; [|done]. by rewrite (Hf g eq_refl). }
  by rewrite Hsame.
Qed.
End ReadingRowOrder.

(** The rows of the file sorted, and another hash. *)
Lemma read_metadata_row_order_witness :
  ∃ exp1 exp2,
    (read (λ _, loaded_three) (λ _, loaded_three) (λ _ _, loaded_three) (λ _, metadata_four)
          (λ _, "3f2a") (λ _, "") "table.biom" (Some "map.txt") None true true "biom" None).2
    = Ok exp1
    ∧ (read (λ _, loaded_three) (λ _, loaded_three) (λ _ _, loaded_three)
            (λ _, metadata_four_sorted)
            (λ _, "9c41") (λ _, "") "table.biom" (Some "map.txt") None true true "biom" None).2
      = Ok exp2
    ∧ exp2 = set_exp_metadata exp1 "map_md5" (PStr "9c41").
Proof.
  eexists _, _. split; [reflexivity|].
  rewrite (read_metadata_row_order
             (λ _, loaded_three) (λ _, loaded_three) (λ _ _, loaded_three) (λ _, "")
             (λ _, metadata_four) (λ _, metadata_four_sorted) (λ _, "3f2a") (λ _, "9c41")).
  - split; reflexivity.
  - reflexivity.
  - cbn. apply (bool_decide_unpack _). by vm_compute.
  - cbn. apply (bool_decide_unpack _). by vm_compute.
  - done.
Defined.

(** *** The invariants of the experiment that [read] returns *)

Lemma mask_filter_length_eq {A B} (mask : list bool) (l : list A) (k : list B) :
  length l = length k → length (mask_filter mask l) = length (mask_filter mask k).
Proof.
  revert l k. induction mask as [|b mask IH]; intros [|x l] [|y k] [=]; try done.
  simpl. destruct b; simpl; auto.
Qed.

Lemma NoDup_mask_filter {A} (mask : list bool) (l : list A) :
  NoDup l → NoDup (mask_filter mask l).
Proof.
  revert l. induction mask as [|b mask IH]; intros [|x l] Hnd; simpl; try constructor.
  apply NoDup_cons in Hnd as [Hx Hnd]. destruct b; [|by apply IH].
  apply NoDup_cons. split; [|by apply IH].
  intros (i & _ & Hi)%elem_of_mask_filter. apply Hx. by eapply list_elem_of_lookup_2.
Qed.

Lemma Forall_mask_filter {A} (P : A → Prop) (mask : list bool) (l : list A) :
  Forall P l → Forall P (mask_filter mask l).
Proof.
  intros H. apply Forall_forall. intros x (i & _ & Hi)%elem_of_mask_filter.
  rewrite Forall_forall in H. apply H. by eapply list_elem_of_lookup_2.
Qed.

Lemma normalize_aligned (exp exp' : Experiment) (total : pyval) :
  normalize exp total 0 = Ok exp' → aligned exp →
  aligned exp'
  ∧ sample_metadata exp' = sample_metadata exp
  ∧ feature_metadata exp' = feature_metadata exp.
Proof.
  intros H [Hrows Hcols]. unfold normalize, sk_normalize_l1 in H.
  destruct (isinstance_bool total); [done|].
  destruct (le_zero total) as [[|]|]; simpl in H; try done.
  destruct (as_num total) as [t|]; simpl in H; [|done].
  destruct (no_entries (data exp)); simpl in H; [done|].
  injection H as <-. unfold aligned. simpl. split; [|done]. unfold mscale. split.
  - by rewrite !length_fmap.
  - rewrite <- list_fmap_compose. apply Forall_fmap.
    eapply Forall_impl; [exact Hcols|]. intros r Hr. simpl.
    by rewrite length_fmap, l1_normalize_row_length.
Qed.

Lemma df_of_ids_index (ids : list string) : df_index (df_of_ids ids) = ids.
Proof.
  unfold df_index, df_of_ids. simpl. rewrite <- list_fmap_compose. apply list_fmap_id.
Qed.

Lemma df_concat_columns_index (a b : DataFrame) :
  length (df_rows b) = length (df_rows a) →
  df_index (df_concat_columns a b) = df_index a.
Proof.
  unfold df_index, df_concat_columns. simpl. generalize (df_rows a) (df_rows b).
  induction l as [|ra la IH]; intros [|rb lb] [=]; [done|]. csimpl. f_equal. by apply IH.
Qed.

(** What follows the construction of the experiment in [read]. *)
Lemma read_tail_invariants (exp0 exp : Experiment) (sfilter : list bool) (drop : bool)
    (normalize_total : option pyval) :
  aligned exp0 → unique_ids exp0 →
  ((exp1 ← (if drop then reorder exp0 (Mask sfilter) 0 else Ok exp0);
    match normalize_total with
    | Some total => normalize exp1 total 0
    | None => Ok exp1
    end) = Ok exp) →
  aligned exp ∧ unique_ids exp
  ∧ feature_metadata exp = feature_metadata exp0
  ∧ (drop = false → sample_metadata exp = sample_metadata exp0).
Proof.
  intros Hal Hu H.
  assert (H1 : ∃ exp1, (if drop then reorder exp0 (Mask sfilter) 0 else Ok exp0) = Ok exp1
                 ∧ aligned exp1 ∧ unique_ids exp1
                 ∧ feature_metadata exp1 = feature_metadata exp0
                 ∧ (drop = false → sample_metadata exp1 = sample_metadata exp0)).
  { destruct drop; [|by exists exp0].
    destruct (reorder exp0 (Mask sfilter) 0) as [exp1|] eqn:Er; [|done].
    exists exp1. split; [done|].
    unfold reorder, df_select in Er. simpl in Er. unfold take_mask in Er.
    destruct (decide (length sfilter = length (data exp0))) as [Hl1|]; [|done].
    destruct (decide (length sfilter = length (df_rows (sample_metadata exp0)))); [|done].
    injection Er as <-. destruct Hal as [Hrows Hcols], Hu as [Hu0 Hu1].
    unfold aligned, unique_ids, df_index. simpl.
    split; [split|split; [split|]]; try done.
    - by apply mask_filter_length_eq.
    - by apply Forall_mask_filter.
    - rewrite <- mask_filter_fmap. by apply NoDup_mask_filter. }
  destruct H1 as (exp1 & E1 & Hal1 & Hu1 & Hf1 & Hs1). rewrite E1 in H. simpl in H.
  destruct normalize_total as [total|]; [|by injection H as <-].
  destruct (normalize_aligned _ _ _ H Hal1) as (Hal' & Hs & Hf).
  destruct Hu1 as [Hu10 Hu11]. unfold unique_ids. rewrite Hs, Hf.
  split; [done|]. split; [done|]. split; [done|]. intros Hd. by apply Hs1.
Qed.

Section ReadingInvariants.
Variable _read_biom : string → loaded.
Variable _read_qiime2 : string → loaded.
Variable _read_open_ms : string → bool → loaded.
Variable _read_table : string → DataFrame.
Variable get_file_md5 : string → string.
Variable get_data_md5 : list (list Qc) → string.

(** X19.  When the loader returns unique sample and feature ids and a
    matrix with one row per sample id and one entry per feature id in each
    row, the metadata files (if any) have unique identifiers, and the
    feature metadata of a biom table (if any) has one row per feature id:
    an experiment that [read] returns has aligned tables (I1, I2) and
    unique identifiers (I3), its features are the feature ids of the data
    in their order, and so are its samples unless [drop] is set. *)
Theorem read_establishes_invariants (data_file : string) (smf fmf : option string)
    (drop sparse_flag : bool) (data_file_type : string) (normalize_total : option pyval)
    (ld : loaded) (exp : Experiment) :
  load_data _read_biom _read_qiime2 _read_open_ms data_file data_file_type = Ok ld →
  length (ld_data ld) = length (ld_sid ld) →
  Forall (λ r, length r = length (ld_oid ld)) (ld_data ld) →
  NoDup (ld_sid ld) → NoDup (ld_oid ld) →
  (∀ f, smf = Some f → NoDup (df_index (_read_table f))) →
  (∀ f, fmf = Some f → NoDup (df_index (_read_table f))) →
  (∀ md, ld_md ld = Some md → length (df_rows md) = length (ld_oid ld)) →
  (read _read_biom _read_qiime2 _read_open_ms _read_table get_file_md5 get_data_md5
        data_file smf fmf drop sparse_flag data_file_type normalize_total).2 = Ok exp →
  aligned exp ∧ unique_ids exp
  ∧ df_index (feature_metadata exp) = ld_oid ld
  ∧ (drop = false → df_index (sample_metadata exp) = ld_sid ld).
Proof.
  intros Hld Hlen Hcols Hsid Hoid Hsm Hfm Hmd. unfold read. rewrite Hld.
  (* the samples' side *)
  assert (Hs : ∃ w1 sfilter (smr : res DataFrame),
             match smf with
             | Some f => align_metadata 0 (_read_table f) (ld_sid ld)
             | None => ([], replicate (length (ld_sid ld)) true, Ok (df_of_ids (ld_sid ld)))
             end = (w1, sfilter, smr)
             ∧ ∀ smd, smr = Ok smd → df_index smd = ld_sid ld).
  { destruct smf as [f|].
    - destruct (align_metadata 0 (_read_table f) (ld_sid ld)) as [[w sf] smr] eqn:E.
      eexists _, _, _. split; [reflexivity|]. intros smd ->.
      unfold align_metadata in E. injection E as _ _ E.
      eapply df_loc_index; [|exact E]. by apply Hsm.
    - eexists _, _, _. split; [reflexivity|]. intros smd [= <-]. apply df_of_ids_index. }
  destruct Hs as (w1 & sfilter & smr & -> & Hsi).
  destruct smr as [smd|e]; [|done]. specialize (Hsi smd eq_refl).
  (* the features' side *)
  assert (Hf : ∃ w2 (fmr : res DataFrame),
             match fmf with
             | Some f =>
                 let '(w, _, feature_metadata) :=
                   align_metadata 1 (_read_table f) (ld_oid ld) in
                 (w, feature_metadata)
             | None => ([], Ok (df_of_ids (ld_oid ld)))
             end = (w2, fmr)
             ∧ ∀ fm, fmr = Ok fm → df_index fm = ld_oid ld).
  { destruct fmf as [f|].
    - destruct (align_metadata 1 (_read_table f) (ld_oid ld)) as [[w sf] fmr] eqn:E.
      eexists _, _. split; [reflexivity|]. intros fm ->.
      unfold align_metadata in E. injection E as _ _ E.
      eapply df_loc_index; [|exact E]. by apply Hfm.
    - eexists _, _. split; [reflexivity|]. intros fm [= <-]. apply df_of_ids_index. }
  destruct Hf as (w2 & fmr & -> & Hfi).
  destruct fmr as [fm|e]; [|done]. specialize (Hfi fm eq_refl).
  match goal with
  | |- context [mkExp (ld_data ld) smd ?fm' ?m sparse_flag] => set (fmd := fm'); set (md := m)
  end.
  assert (Hfdi : df_index fmd = ld_oid ld).
  { unfold fmd. destruct (ld_md ld) as [mdt|] eqn:Emd; [|done].
    destruct (decide _); [|done]. rewrite df_concat_columns_index; [done|].
    rewrite (Hmd mdt eq_refl). rewrite <- Hfi. unfold df_index. by rewrite length_fmap. }
  simpl. intros H.
  destruct (read_tail_invariants (mkExp (ld_data ld) smd fmd md sparse_flag) exp
              sfilter drop normalize_total) as (Hal & Hu & Hfe & Hse); [| |exact H|].
  - unfold aligned. simpl. split.
    + rewrite Hlen, <- Hsi. unfold df_index. by rewrite length_fmap.
    + eapply Forall_impl; [exact Hcols|]. intros r Hr. simpl in *.
      rewrite Hr, <- Hfdi. unfold df_index. by rewrite length_fmap.
  - unfold unique_ids. simpl. by rewrite Hsi, Hfdi.
  - split; [done|]. split; [done|]. rewrite Hfe. simpl. split; [done|].
    intros Hd. by rewrite (Hse Hd).
Qed.
End ReadingInvariants.

Lemma read_establishes_invariants_witness :
  ∃ exp,
    (read (λ _, loaded_three) (λ _, loaded_three) (λ _ _, loaded_three) (λ _, metadata_four)
          (λ _, "") (λ _, "") "table.biom" (Some "map.txt") None true true "biom" None).2
    = Ok exp
    ∧ aligned exp ∧ unique_ids exp.
Proof.
  eexists. split; [reflexivity|].
  edestruct (read_establishes_invariants
               (λ _, loaded_three) (λ _, loaded_three) (λ _ _, loaded_three)
               (λ _, metadata_four) (λ _, "") (λ _, "")
               "table.biom" (Some "map.txt") None true true "biom" None loaded_three)
    as (Hal & Hu & _); [reflexivity|reflexivity|by repeat constructor| | | | |done|reflexivity|].
  - cbn. apply (bool_decide_unpack _). by vm_compute.
  - cbn. apply (bool_decide_unpack _). by vm_compute.
  - intros f [= <-]. cbn. apply (bool_decide_unpack _). by vm_compute.
  - done.
  - by split.
Defined.

(** ** _prevalence *)

Lemma length_filter_all {A} (P : A → Prop) `{∀ x, Decision (P x)} (l : list A) :
  length (filter P l) = length l ↔ Forall P l.
Proof.
  split; [|intros Hall; by rewrite filter_all].
  induction l as [|x l IH]; [constructor|]. intros Hlen.
  destruct (decide (P x)) as [Hx|Hx].
  - rewrite filter_cons_True in Hlen by done. simpl in Hlen.
    constructor; [done|]. apply IH. lia.
  - rewrite filter_cons_False in Hlen by done. simpl in Hlen.
    pose proof (length_filter P l). lia.
Qed.

Lemma length_filter_none {A} (P : A → Prop) `{∀ x, Decision (P x)} (l : list A) :
  length (filter P l) = 0%nat ↔ Forall (λ x, ¬ P x) l.
Proof.
  split; [|intros Hn; by rewrite filter_none].
  intros Hlen. apply Forall_forall. intros x Hx HP.
  assert (x ∈ filter P l) as Hin by (by apply list_elem_of_filter).
  destruct (filter P l); [by apply elem_of_nil in Hin|done].
Qed.

(** X20.  On a non-empty array [_prevalence] is the fraction of the
    entries that reach the cutoff: a number between 0 and 1, which is 1
    exactly when every entry reaches the cutoff and 0 exactly when none
    does; the empty array divides zero by zero. *)
Theorem prevalence_fraction (cutoff : Qc) (x : list Qc) :
  (x = [] → _prevalence cutoff (Arr x) = Raise ZeroDivisionError)
  ∧ (x ≠ [] →
       ∃ p, _prevalence cutoff (Arr x) = Ok (Some p)
         ∧ 0 ≤ p ∧ p ≤ 1
         ∧ (p = 1 ↔ Forall (λ i, cutoff ≤ i) x)
         ∧ (p = 0 ↔ Forall (λ i, i < cutoff) x)).
Proof.
  split; [by intros ->|]. intros Hne.
  set (c := Qc_of_Z (Z.of_nat (length (filter (λ i, cutoff ≤ i) x)))).
  set (n := Qc_of_Z (Z.of_nat (length x))).
  assert (Hn : 0 < n).
  { unfold n. rewrite <- Z2Qc_inj_0. apply (proj1 (Z2Qc_inj_lt _ _)). assert (length x ≠ 0%nat) by (by destruct x). lia. }
  assert (Hn0 : n ≠ 0) by (intros E; rewrite E in Hn; by apply (Qclt_not_le _ _ Hn)).
  assert (Hc : 0 ≤ c).
  { unfold c. rewrite <- Z2Qc_inj_0. apply (proj1 (Z2Qc_inj_le _ _)). lia. }
  assert (Hcn : c ≤ n).
  { unfold c, n. apply (proj1 (Z2Qc_inj_le _ _)). pose proof (length_filter (λ i, cutoff ≤ i) x). lia. }
  assert (Hpn : c / n * n = c) by (field; done).
  exists (c / n). split.
  { destruct x as [|y x]; [done|]. unfold _prevalence. fold c n. by rewrite fdiv_finite. }
  split; [|split; [|split]].
  - unfold Qcdiv. apply Qcmult_nonneg_nonneg; [done|]. by apply Qclt_le_weak, Qcinv_pos.
  - apply (Qcmult_le_mono_pos_r _ _ n Hn). by rewrite Hpn, Qcmult_1_l.
  - rewrite <- length_filter_all. split.
    + intros Hp. rewrite Hp, Qcmult_1_l in Hpn. unfold c, n in Hpn.
      apply Z2Qc_inj, Nat2Z.inj in Hpn. symmetry. exact Hpn.
    + intros Hl. unfold c, n. change (length (filter (λ i, cutoff ≤ i) x) = length x) in Hl.
      rewrite Hl. unfold Qcdiv. by apply Qcmult_inv_r.
  - transitivity (length (filter (λ i, cutoff ≤ i) x) = 0%nat).
    + split.
      * intros Hp. rewrite Hp, Qcmult_0_l in Hpn. unfold c in Hpn.
        rewrite <- Z2Qc_inj_0 in Hpn. apply Z2Qc_inj in Hpn.
        apply Nat2Z.inj. symmetry. exact Hpn.
      * intros Hl. unfold c. rewrite Hl. change (0 / n = 0).
        unfold Qcdiv. ring.
    + rewrite length_filter_none. apply Forall_iff. intros i. split.
      * apply Qcnot_le_lt.
      * apply Qclt_not_le.
Qed.

Lemma prevalence_fraction_witness :
  ∃ p, _prevalence 1 (Arr [0; Qc_of_Z 2; Qc_of_Z 4; 0]) = Ok (Some p) ∧ 0 ≤ p ∧ p ≤ 1.
Proof.
  destruct (proj2 (prevalence_fraction 1 [0; Qc_of_Z 2; Qc_of_Z 4; 0])) as (p & Hp & H0 & H1 & _);
    [done|].
  by exists p.
Defined.
